(** * pyvolt.measurement: measurement sets of the state estimator

    A shallow embedding of [pyvolt/measurement.py].

    Numbers.  Python and numpy floats are modelled by the real numbers of
    the Standard Library: [abs] is [Rabs], [np.sqrt] is [sqrt], [np.cos]
    and [np.sin] are [cos] and [sin], [x ** (-2)] is [powerRZ x (-2)].
    Rounding, infinities and NaN are therefore outside the model.

    Objects.  A [Measurement] object is a record; a [MeasurementSet] is
    the list held by its [measurements] attribute.  Methods that assign
    to attributes of the stored objects return the list after the
    assignments.  The sets considered hold pairwise distinct objects, as
    [create_measurement] builds them. *)

From Stdlib Require Import Reals Lra Lia.
From stdpp Require Import base list strings sorting.

Open Scope R_scope.

(** ** Enumerations *)

Inductive ElemType := Node | Branch.

Inductive MeasType :=
  | V_mag | Sinj_real | Sinj_imag | S1_real | S1_imag | I_mag
  | Vpmu_mag | Vpmu_phase | Ipmu_mag | Ipmu_phase
  | S2_real | S2_imag | Ipmu_inj_mag | Ipmu_inj_phase.

#[global] Instance ElemType_eq_dec : EqDecision ElemType.
Proof. solve_decision. Defined.

#[global] Instance MeasType_eq_dec : EqDecision MeasType.
Proof. solve_decision. Defined.

(** ** Topology elements

    The attributes of [network.Node] / [network.Branch] that this module
    reads. *)

Record Element := mkElement {
  uuid : string;
  baseVoltage : R;
  base_current : R;
  base_apparent_power : R
}.

(** ** class Measurement *)

Record Measurement := mkMeasurement {
  element : Element;
  element_type : ElemType;
  meas_type : MeasType;
  meas_value_ideal : R;
  unc : R;
  std_dev : R;
  std_dev_act : R;
  meas_value : R;
  meas_value_act : R
}.

(** [Measurement.__init__]: the two [isinstance] checks hold by typing. *)
Definition Measurement_init (e : Element) (et : ElemType) (mt : MeasType)
    (ideal u : R) : Measurement :=
  mkMeasurement e et mt ideal u 0 0 0 0.

Definition set_std_dev (m : Measurement) (x : R) : Measurement :=
  mkMeasurement (element m) (element_type m) (meas_type m)
    (meas_value_ideal m) (unc m) x (std_dev_act m)
    (meas_value m) (meas_value_act m).

Definition set_std_dev_act (m : Measurement) (x : R) : Measurement :=
  mkMeasurement (element m) (element_type m) (meas_type m)
    (meas_value_ideal m) (unc m) (std_dev m) x
    (meas_value m) (meas_value_act m).

Definition set_meas_value (m : Measurement) (x : R) : Measurement :=
  mkMeasurement (element m) (element_type m) (meas_type m)
    (meas_value_ideal m) (unc m) (std_dev m) (std_dev_act m)
    x (meas_value_act m).

Definition set_meas_value_act (m : Measurement) (x : R) : Measurement :=
  mkMeasurement (element m) (element_type m) (meas_type m)
    (meas_value_ideal m) (unc m) (std_dev m) (std_dev_act m)
    (meas_value m) x.

(** ** class MeasurementSet *)

Abbreviation MeasurementSet := (list Measurement) (only parsing).

Definition MeasurementSet_init : MeasurementSet := [].

Definition create_measurement (ms : MeasurementSet) (e : Element)
    (et : ElemType) (mt : MeasType) (ideal u : R) : MeasurementSet :=
  ms ++ [Measurement_init e et mt ideal u].

(** *** Unit conversions

    The scaling expressions that [update_measurement] and
    [meas_creation] write in line, one pair per quantity family. *)

Definition volt_base (e : Element) : R := baseVoltage e / sqrt 3.
Definition curr_base (e : Element) : R := base_current e.
Definition power_base (e : Element) : R := base_apparent_power e / 3.

(** Division of two Python floats raises [ZeroDivisionError] on a zero
    divisor; [None] stands for the raise.  When one operand is a numpy
    float the division returns inf or nan with a warning instead of
    raising; those values are outside the model, so what is proved
    about a raise is stated under the condition that it occurs. *)
Definition py_div (x y : R) : option R :=
  if Req_dec_T y 0 then None else Some (x / y).

(** *** update_measurement *)

Inductive outcome := Returned | ZeroDivisionError.

Definition write_values (m : Measurement) (meas_value_pu meas_value_act' : R)
    : Measurement :=
  set_meas_value_act (set_meas_value m meas_value_pu) meas_value_act'.

(** The body of the loop for one stored measurement; [None] when the
    body raises.  The voltage divisor is a numpy float (it comes from
    [np.sqrt]), whose division does not raise. *)
Definition update_body (element_uuid : string) (mt : MeasType)
    (meas_data : R) (value_in_pu : bool) (meas : Measurement)
    : option Measurement :=
  if bool_decide (uuid (element meas) = element_uuid) then
    if bool_decide (mt = Vpmu_mag)
       && (bool_decide (meas_type meas = Vpmu_mag)
           || bool_decide (meas_type meas = V_mag)) then
      if negb value_in_pu then
        Some (write_values meas (meas_data / volt_base (element meas)) meas_data)
      else
        Some (write_values meas meas_data (meas_data * volt_base (element meas)))
    else if bool_decide (mt = Ipmu_mag)
       && (bool_decide (meas_type meas = Ipmu_mag)
           || bool_decide (meas_type meas = I_mag)
           || bool_decide (meas_type meas = Ipmu_inj_mag)) then
      if negb value_in_pu then
        match py_div meas_data (curr_base (element meas)) with
        | Some meas_value_pu => Some (write_values meas meas_value_pu meas_data)
        | None => None
        end
      else
        Some (write_values meas meas_data (meas_data * curr_base (element meas)))
    else if bool_decide (mt = meas_type meas)
       && (bool_decide (mt = S1_real) || bool_decide (mt = S1_imag)
           || bool_decide (mt = Sinj_imag) || bool_decide (mt = Sinj_imag)) then
      if negb value_in_pu then
        match py_div meas_data (power_base (element meas)) with
        | Some meas_value_pu => Some (write_values meas meas_value_pu meas_data)
        | None => None
        end
      else
        Some (write_values meas meas_data (meas_data * power_base (element meas)))
    else if bool_decide (mt = meas_type meas)
       && (bool_decide (mt = Vpmu_phase) || bool_decide (mt = Ipmu_phase)
           || bool_decide (mt = Ipmu_inj_phase)) then
      Some (write_values meas meas_data meas_data)
    else Some meas
  else Some meas.

(** The loop over [self.measurements].  When the body raises, the
    measurements already visited keep their new values and the rest are
    untouched. *)
Fixpoint update_measurement (ms : MeasurementSet) (element_uuid : string)
    (mt : MeasType) (meas_data : R) (value_in_pu : bool)
    : MeasurementSet * outcome :=
  match ms with
  | [] => ([], Returned)
  | meas :: rest =>
      match update_body element_uuid mt meas_data value_in_pu meas with
      | None => (meas :: rest, ZeroDivisionError)
      | Some meas' =>
          let '(rest', o) :=
            update_measurement rest element_uuid mt meas_data value_in_pu in
          (meas' :: rest', o)
      end
  end.

(** *** meas_creation *)

(** numpy's global generator after [np.random.seed(seed)]: the i-th
    standard-normal draw and the i-th draw from [0, 1). *)
Record RandomState := mkRandomState {
  standard_normal : option N -> nat -> R;
  random_sample : option N -> nat -> R
}.

(** [np.random.normal(loc, scale, size)] *)
Definition random_normal (g : RandomState) (seed : option N)
    (loc scale : R) (size : nat) : list R :=
  map (fun i => loc + scale * standard_normal g seed i) (seq 0 size).

(** [np.random.uniform(low, high, size)] *)
Definition random_uniform (g : RandomState) (seed : option N)
    (low high : R) (size : nat) : list R :=
  map (fun i => low + (high - low) * random_sample g seed i) (seq 0 size).

(** [t in l] on a list of enumeration members *)
Definition type_in (t : MeasType) (l : list MeasType) : bool :=
  bool_decide (t ∈ l).

(** [err_pu[index]]; the index is always in range. *)
Definition at_index (err_pu : list R) (index : nat) : R :=
  default 0 (err_pu !! index).

Definition simulate_normal (err_pu : list R) (index : nat)
    (measurement : Measurement) : Measurement :=
  if negb (type_in (meas_type measurement) [Ipmu_phase; Vpmu_phase; Ipmu_inj_phase]) then
    let zdev_ideal :=
      Rabs (meas_value_ideal measurement * unc measurement) / 300 in
    let m1 := set_meas_value measurement
      (meas_value_ideal measurement + zdev_ideal * at_index err_pu index) in
    set_std_dev m1 (Rabs (meas_value m1 * unc m1) / 300)
  else if type_in (meas_type measurement) [Ipmu_phase; Vpmu_phase; Ipmu_inj_phase] then
    let zdev_ideal := unc measurement / 3 in
    let m1 := set_meas_value measurement
      (meas_value_ideal measurement + zdev_ideal * at_index err_pu index) in
    set_std_dev m1 zdev_ideal
  else measurement.

Definition simulate_uniform (err_pu : list R) (index : nat)
    (measurement : Measurement) : Measurement :=
  if negb (type_in (meas_type measurement) [Ipmu_phase; Vpmu_phase; Ipmu_inj_phase]) then
    let zdev_ideal :=
      Rabs (meas_value_ideal measurement * unc measurement) / 300 in
    let m1 := set_meas_value measurement
      (meas_value_ideal measurement + (3 * zdev_ideal) * at_index err_pu index) in
    set_std_dev m1 (Rabs (meas_value m1 * unc m1) / 300)
  else if type_in (meas_type measurement) [Ipmu_phase; Vpmu_phase; Ipmu_inj_phase] then
    let zdev_ideal := unc measurement / 3 in
    let m1 := set_meas_value measurement
      (meas_value_ideal measurement + (3 * zdev_ideal) * at_index err_pu index) in
    set_std_dev m1 zdev_ideal
  else measurement.

Definition field_reading (measurement : Measurement) : Measurement :=
  let m1 := set_meas_value measurement (meas_value_ideal measurement) in
  if negb (type_in (meas_type m1) [Ipmu_phase; Vpmu_phase; Ipmu_inj_phase]) then
    set_std_dev m1 (Rabs (meas_value m1 * unc m1) / 300)
  else if type_in (meas_type m1) [Ipmu_phase; Vpmu_phase; Ipmu_inj_phase] then
    set_std_dev m1 (unc m1 / 3)
  else m1.

Definition type_volt := [Vpmu_mag; V_mag].
Definition type_curr := [Ipmu_mag; I_mag; Ipmu_inj_mag].
Definition type_power :=
  [S1_imag; S1_real; S2_imag; S2_real; Sinj_imag; Sinj_real].
Definition type_phase := [Vpmu_phase; Ipmu_phase; Ipmu_inj_phase].

(** "converting to actuals" *)
Definition to_actuals (meas : Measurement) : Measurement :=
  if type_in (meas_type meas) type_volt then
    let m1 := set_meas_value_act meas (meas_value meas * volt_base (element meas)) in
    set_std_dev_act m1 (std_dev m1 * volt_base (element m1))
  else if type_in (meas_type meas) type_curr then
    let m1 := set_meas_value_act meas (meas_value meas * curr_base (element meas)) in
    set_std_dev_act m1 (std_dev m1 * curr_base (element m1))
  else if type_in (meas_type meas) type_power then
    let m1 := set_meas_value_act meas (meas_value meas * power_base (element meas)) in
    set_std_dev_act m1 (std_dev m1 * power_base (element m1))
  else if type_in (meas_type meas) type_phase then
    let m1 := set_meas_value_act meas (meas_value meas) in
    set_std_dev_act m1 (std_dev m1)
  else meas.

Definition meas_creation (g : RandomState) (ms : MeasurementSet)
    (dist : string) (seed : option N) (type : string) : MeasurementSet :=
  let ms1 :=
    if bool_decide (type = "simulation") then
      if bool_decide (dist = "normal") then
        let err_pu := random_normal g seed 0 0 (length ms) in
        imap (simulate_normal err_pu) ms
      else if bool_decide (dist = "uniform") then
        let err_pu := random_uniform g seed (-1) 1 (length ms) in
        imap (simulate_uniform err_pu) ms
      else ms
    else if bool_decide (type = "field") then
      map field_reading ms
    else ms in
  map to_actuals ms1.

(** *** Selection by type *)

Definition getMeasurementsOfType (ms : MeasurementSet) (type : MeasType)
    : list Measurement :=
  foldl (fun measurements measurement =>
           if bool_decide (meas_type measurement = type)
           then measurements ++ [measurement] else measurements)
        [] ms.

Definition getNumberOfMeasurements (ms : MeasurementSet) (type : MeasType)
    : nat :=
  foldl (fun number measurement =>
           if bool_decide (meas_type measurement = type)
           then (number + 1)%nat else number)
        0%nat ms.

(** [enumerate(l)] *)
Definition enumerate {A} (l : list A) : list (nat * A) :=
  zip (seq 0 (length l)) l.

(** [idx] starts as [np.zeros(n, dtype=int)] and is filled from the
    left; an assignment past its end would raise and never happens. *)
Definition getIndexOfMeasurements (ms : MeasurementSet) (type : MeasType)
    : list nat :=
  fst (foldl (fun '(idx, i) '(index, measurement) =>
                if bool_decide (meas_type (measurement : Measurement) = type)
                then (<[i := index]> idx, (i + 1)%nat) else (idx, i))
             (replicate (getNumberOfMeasurements ms type) 0%nat, 0%nat)
             (enumerate ms)).

(** *** Weights and covariances *)

(** [10 ** (-6)] *)
Definition cut : R := powerRZ 10 (-6).

Definition cut_std_dev (measurement : Measurement) : Measurement :=
  if Rlt_dec (std_dev measurement) cut
  then set_std_dev measurement cut else measurement.

Definition cut_std_dev_act (measurement : Measurement) : Measurement :=
  if Rlt_dec (std_dev_act measurement) cut
  then set_std_dev_act measurement cut else measurement.

(** Each of the four methods returns its array and leaves the set with
    the assignments its loop made to the stored measurements.  The
    entries are the exact real powers of the standard deviation; the
    rounding of the double-precision power is outside the model. *)
Definition getWeightsMatrix (ms : MeasurementSet) : list R * MeasurementSet :=
  let ms' := map cut_std_dev ms in
  (map (fun measurement => powerRZ (std_dev measurement) (-2)) ms', ms').

Definition getWeightsMatrixActuals (ms : MeasurementSet)
    : list R * MeasurementSet :=
  let ms' := map cut_std_dev_act ms in
  (map (fun measurement => powerRZ (std_dev_act measurement) (-2)) ms', ms').

Definition getCovarianceMatrix (ms : MeasurementSet)
    : list R * MeasurementSet :=
  let ms' := map cut_std_dev ms in
  (map (fun measurement => powerRZ (std_dev measurement) 2) ms', ms').

Definition getCovarianceMatrixActuals (ms : MeasurementSet)
    : list R * MeasurementSet :=
  let ms' := map cut_std_dev_act ms in
  (map (fun measurement => powerRZ (std_dev_act measurement) 2) ms', ms').

(** *** Measurement vectors *)

(** One of the three replacement loops: the index arrays of a magnitude
    type and of a phase type are zipped, and the two slots of every pair
    are overwritten; [value] reads [meas_value] or [meas_value_act] of
    the stored measurement. *)
Definition replace_pmu (ms : MeasurementSet) (value : Measurement -> R)
    (mag_type phase_type : MeasType) (meas_real : list R) : list R :=
  foldl (fun meas_real '(mag_index, phase_index) =>
           match ms !! mag_index, ms !! phase_index with
           | Some mag, Some phase =>
               let amp := value mag in
               let theta := value phase in
               <[phase_index := amp * sin theta]>
                 (<[mag_index := amp * cos theta]> meas_real)
           | _, _ => meas_real
           end)
        meas_real
        (zip (getIndexOfMeasurements ms mag_type)
             (getIndexOfMeasurements ms phase_type)).

Definition meas_vector (ms : MeasurementSet) (value : Measurement -> R)
    : list R :=
  replace_pmu ms value Ipmu_inj_mag Ipmu_inj_phase
    (replace_pmu ms value Ipmu_mag Ipmu_phase
       (replace_pmu ms value Vpmu_mag Vpmu_phase
          (map value ms))).

Definition getMeasValues (ms : MeasurementSet) : list R :=
  meas_vector ms meas_value.

Definition getMeasValuesActuals (ms : MeasurementSet) : list R :=
  meas_vector ms meas_value_act.

(** *** Sorting and merging *)

Definition sorted_types : list MeasType :=
  [V_mag; Sinj_real; Sinj_imag; S1_real; S1_imag; S2_real; S2_imag; I_mag;
   Vpmu_mag; Vpmu_phase; Ipmu_mag; Ipmu_phase; Ipmu_inj_mag; Ipmu_inj_phase].

Definition getSortedMeasurementSet (ms : MeasurementSet) : MeasurementSet :=
  foldl (fun sorted type_meas => sorted ++ getMeasurementsOfType ms type_meas)
        MeasurementSet_init sorted_types.

Definition mergeMeasurementSets (meas_set_1 meas_set_2 : MeasurementSet)
    : MeasurementSet :=
  meas_set_1 ++ meas_set_2.

(** *** Matching rule of update_measurement

    The guards of [update_measurement] collected in one test: does an
    incoming update for [element_uuid] and type [mt] reach one of the
    four assigning branches at the stored measurement [meas]? *)
Definition matches (element_uuid : string) (mt : MeasType)
    (meas : Measurement) : bool :=
  bool_decide (uuid (element meas) = element_uuid)
  && ((bool_decide (mt = Vpmu_mag)
       && (bool_decide (meas_type meas = Vpmu_mag)
           || bool_decide (meas_type meas = V_mag)))
      || (bool_decide (mt = Ipmu_mag)
          && (bool_decide (meas_type meas = Ipmu_mag)
              || bool_decide (meas_type meas = I_mag)
              || bool_decide (meas_type meas = Ipmu_inj_mag)))
      || (bool_decide (mt = meas_type meas)
          && (bool_decide (mt = S1_real) || bool_decide (mt = S1_imag)
              || bool_decide (mt = Sinj_imag) || bool_decide (mt = Sinj_imag)))
      || (bool_decide (mt = meas_type meas)
          && (bool_decide (mt = Vpmu_phase) || bool_decide (mt = Ipmu_phase)
              || bool_decide (mt = Ipmu_inj_phase)))).

(** Two measurements agree on every attribute except [std_dev]
    (resp. [std_dev_act]). *)
Definition same_but_std_dev (m m' : Measurement) : Prop :=
  element m' = element m /\ element_type m' = element_type m
  /\ meas_type m' = meas_type m /\ meas_value_ideal m' = meas_value_ideal m
  /\ unc m' = unc m /\ std_dev_act m' = std_dev_act m
  /\ meas_value m' = meas_value m /\ meas_value_act m' = meas_value_act m.

Definition same_but_std_dev_act (m m' : Measurement) : Prop :=
  element m' = element m /\ element_type m' = element_type m
  /\ meas_type m' = meas_type m /\ meas_value_ideal m' = meas_value_ideal m
  /\ unc m' = unc m /\ std_dev m' = std_dev m
  /\ meas_value m' = meas_value m /\ meas_value_act m' = meas_value_act m.

(** ** Sample data *)

Definition node_N1 : Element := mkElement "N1" 20 1 25.
Definition node_N2 : Element := mkElement "N2" 20 1 25.
Definition branch_L1 : Element := mkElement "L1" 20 1 25.

(** A generator whose every draw is one. *)
Definition ones : RandomState := mkRandomState (fun _ _ => 1) (fun _ _ => 1).

(** *** meas_creation_test *)

Inductive test_outcome := TestReturned | IndexError.

(** The first half of the loop body: the standard deviation is scaled
    by the ideal value unless the type is one of the two listed. *)
Definition scale_std_dev (measurement : Measurement) : Measurement :=
  if negb (type_in (meas_type measurement) [Ipmu_phase; Vpmu_phase]) then
    set_std_dev measurement
      (Rabs (meas_value_ideal measurement) * std_dev measurement)
  else if type_in (meas_type measurement) [Ipmu_phase; Vpmu_phase] then
    set_std_dev measurement (std_dev measurement)
  else measurement.

(** The loop of [meas_creation_test] from position [index] on.
    [err_pu[index]] raises [IndexError] past the end of [err_pu]; the
    standard deviation of that measurement has been assigned by then. *)
Fixpoint meas_creation_test_from (index : nat) (ms : MeasurementSet)
    (err_pu : list R) : MeasurementSet * test_outcome :=
  match ms with
  | [] => ([], TestReturned)
  | measurement :: rest =>
      let m1 := scale_std_dev measurement in
      match err_pu !! index with
      | None => (m1 :: rest, IndexError)
      | Some e =>
          let m2 := set_meas_value m1 (meas_value_ideal m1 + std_dev m1 * e) in
          let '(rest', o) := meas_creation_test_from (S index) rest err_pu in
          (m2 :: rest', o)
      end
  end.

Definition meas_creation_test (ms : MeasurementSet) (err_pu : list R)
    : MeasurementSet * test_outcome :=
  meas_creation_test_from 0 ms err_pu.

(** *** Arrays for test purposes *)

Definition getStd_Dev (ms : MeasurementSet) : list R := map std_dev ms.

(** The loop shared by [getIdealMeasValues] and [getMeasValuesTest] when
    a type is given: an array of [getNumberOfMeasurements] zeros is
    filled from the left with [value] of the measurements of the type. *)
Definition values_of_type (value : Measurement -> R) (ms : MeasurementSet)
    (type : MeasType) : list R :=
  fst (foldl (fun '(meas_val, idx) measurement =>
                if bool_decide (meas_type (measurement : Measurement) = type)
                then (<[idx := value measurement]> meas_val, (idx + 1)%nat)
                else (meas_val, idx))
             (replicate (getNumberOfMeasurements ms type) 0, 0%nat) ms).

Definition getIdealMeasValues (ms : MeasurementSet) (type : option MeasType)
    : list R :=
  match type with
  | None => map meas_value_ideal ms
  | Some t => values_of_type meas_value_ideal ms t
  end.

Definition getMeasValuesTest (ms : MeasurementSet) (type : option MeasType)
    : list R :=
  match type with
  | None => map meas_value ms
  | Some t => values_of_type meas_value ms t
  end.

(** ** Further notions for the statements *)

(** The factor by which [meas_creation] turns a per-unit quantity of a
    measurement into actual units: the base of its family, and one for
    a phase. *)
Definition unit_base (meas : Measurement) : R :=
  if type_in (meas_type meas) type_volt then volt_base (element meas)
  else if type_in (meas_type meas) type_curr then curr_base (element meas)
  else if type_in (meas_type meas) type_power then power_base (element meas)
  else 1.

(** The value in actual units is the per-unit value times the base. *)
Definition value_units_agree (meas : Measurement) : Prop :=
  meas_value_act meas = meas_value meas * unit_base meas.

Definition std_dev_units_agree (meas : Measurement) : Prop :=
  std_dev_act meas = std_dev meas * unit_base meas.

(** Two measurements agree on every attribute except [meas_value] and
    [meas_value_act]. *)
Definition same_but_values (m m' : Measurement) : Prop :=
  element m' = element m /\ element_type m' = element_type m
  /\ meas_type m' = meas_type m /\ meas_value_ideal m' = meas_value_ideal m
  /\ unc m' = unc m /\ std_dev m' = std_dev m
  /\ std_dev_act m' = std_dev_act m.

(** Two measurements agree on what [Measurement.__init__] receives. *)
Definition same_identity (m m' : Measurement) : Prop :=
  element m' = element m /\ element_type m' = element_type m
  /\ meas_type m' = meas_type m /\ meas_value_ideal m' = meas_value_ideal m
  /\ unc m' = unc m.

Definition nonzero_bases (e : Element) : Prop :=
  baseVoltage e <> 0 /\ base_current e <> 0 /\ base_apparent_power e <> 0.

(** The position of a type in the order of [getSortedMeasurementSet]. *)
Definition type_rank (t : MeasType) : nat :=
  default 0%nat (fst <$> list_find (fun t' => t' = t) sorted_types).

(** A generator whose uniform draws are all one half. *)
Definition halves : RandomState :=
  mkRandomState (fun _ _ => 0) (fun _ _ => 1/2).

Definition branch_dead : Element := mkElement "L0" 20 0 25.

(** ** Auxiliary notions for the statements *)

(** The indices, counted from [k], of the measurements of a type. *)
Fixpoint indices_from (type : MeasType) (k : nat) (ms : list Measurement)
    : list nat :=
  match ms with
  | [] => []
  | m :: rest =>
      if decide (meas_type m = type)
      then k :: indices_from type (S k) rest
      else indices_from type (S k) rest
  end.

(** The body of a replacement loop of [replace_pmu]. *)
Definition pmu_step (ms : list Measurement) (value : Measurement -> R)
    (meas_real : list R) (p : nat * nat) : list R :=
  let '(mag_index, phase_index) := p in
  match ms !! mag_index, ms !! phase_index with
  | Some mag, Some phase =>
      <[phase_index := value mag * sin (value phase)]>
        (<[mag_index := value mag * cos (value phase)]> meas_real)
  | _, _ => meas_real
  end.

(** The three phasor families, as (magnitude type, phase type). *)
Definition pmu_families : list (MeasType * MeasType) :=
  [(Vpmu_mag, Vpmu_phase); (Ipmu_mag, Ipmu_phase);
   (Ipmu_inj_mag, Ipmu_inj_phase)].

Definition pmu_types : list MeasType :=
  [Vpmu_mag; Vpmu_phase; Ipmu_mag; Ipmu_phase; Ipmu_inj_mag; Ipmu_inj_phase].

(** Slots [a] and [b] of [out] hold the rectangular form of the phasor
    whose magnitude is stored at [a] and whose phase is stored at [b]. *)
Definition rectangular_at (ms : list Measurement) (value : Measurement -> R)
    (out : list R) (a b : nat) : Prop :=
  exists mag phase,
    ms !! a = Some mag /\ ms !! b = Some phase
    /\ out !! a = Some (value mag * cos (value phase))
    /\ out !! b = Some (value mag * sin (value phase)).

(** * Properties *)

(** ** update_measurement *)

Lemma update_body_no_match element_uuid mt meas_data value_in_pu meas :
  matches element_uuid mt meas = false ->
  update_body element_uuid mt meas_data value_in_pu meas = Some meas.
Proof.
  unfold matches, update_body. intros H.
  destruct (bool_decide (uuid (element meas) = element_uuid)); [|done].
  simpl in H.
  repeat match goal with
  | H : (_ || _) = false |- _ => apply orb_false_elim in H as [H ?]
  end.
  repeat match goal with
  | H : ?c = false |- context [if ?c then _ else _] => rewrite H
  end.
  done.
Qed.

Lemma update_measurement_skips (ms : MeasurementSet) element_uuid mt
    meas_data value_in_pu :
  (forall meas, meas ∈ ms -> matches element_uuid mt meas = false) ->
  update_measurement ms element_uuid mt meas_data value_in_pu = (ms, Returned).
Proof.
  induction ms as [|meas rest IH]; intros H; [done|].
  simpl. rewrite update_body_no_match by (apply H; left).
  rewrite IH; [done|]. intros m Hm. apply H. by right.
Qed.

(** C9: a live update that matches no stored measurement returns
    normally and leaves the whole set, hence every [meas_value],
    [meas_value_act], [std_dev] and [std_dev_act], as it was. *)
Theorem update_measurement_no_match (ms : MeasurementSet) element_uuid mt
    meas_data value_in_pu :
  (forall meas, meas ∈ ms -> matches element_uuid mt meas = false) ->
  update_measurement ms element_uuid mt meas_data value_in_pu = (ms, Returned).
Proof. apply update_measurement_skips. Qed.

Lemma update_measurement_no_match_witness :
  update_measurement
    [Measurement_init node_N1 Node V_mag 1 1;
     Measurement_init branch_L1 Branch S2_real 1 1]
    "N2" Vpmu_mag 5 true
  = ([Measurement_init node_N1 Node V_mag 1 1;
      Measurement_init branch_L1 Branch S2_real 1 1], Returned).
Proof.
  apply update_measurement_no_match.
  intros meas Hm.
  apply elem_of_cons in Hm as [-> | Hm]; [reflexivity|].
  apply elem_of_cons in Hm as [-> | Hm]; [reflexivity|].
  by apply elem_of_nil in Hm.
Defined.

(** C3: an incoming update of type [Sinj_real], [S2_real] or [S2_imag]
    changes no measurement at all, whatever the set and the element
    identifier; in particular the stored measurement of exactly that
    type on that element keeps [meas_value = 0]. *)
Theorem update_measurement_power_not_covered :
  (forall (ms : MeasurementSet) element_uuid meas_data value_in_pu,
      update_measurement ms element_uuid Sinj_real meas_data value_in_pu
      = (ms, Returned))
  /\ (forall (ms : MeasurementSet) element_uuid meas_data value_in_pu,
      update_measurement ms element_uuid S2_real meas_data value_in_pu
      = (ms, Returned))
  /\ (forall (ms : MeasurementSet) element_uuid meas_data value_in_pu,
      update_measurement ms element_uuid S2_imag meas_data value_in_pu
      = (ms, Returned))
  /\ fst (update_measurement [Measurement_init node_N1 Node Sinj_real 1 1]
            "N1" Sinj_real (1/2) true)
     = [Measurement_init node_N1 Node Sinj_real 1 1].
Proof.
  assert (Hm : forall u mt m,
             mt = Sinj_real \/ mt = S2_real \/ mt = S2_imag ->
             matches u mt m = false).
  { intros u mt m Hmt. unfold matches.
    destruct (bool_decide (uuid (element m) = u)); [|done].
    destruct Hmt as [-> | [-> | ->]]; simpl;
      by rewrite !andb_false_r. }
  repeat split; intros;
    rewrite update_measurement_skips by (intros; apply Hm; tauto);
    reflexivity.
Qed.

(** The three power types the guard does list are written through the
    power base. *)
Lemma update_body_power_covered element_uuid mt meas_data meas :
  uuid (element meas) = element_uuid ->
  meas_type meas = mt ->
  mt = S1_real \/ mt = S1_imag \/ mt = Sinj_imag ->
  update_body element_uuid mt meas_data true meas
  = Some (write_values meas meas_data (meas_data * power_base (element meas))).
Proof.
  intros Hu Ht Hmt. unfold update_body.
  rewrite bool_decide_eq_true_2 by done. rewrite Ht.
  destruct Hmt as [-> | [-> | ->]]; reflexivity.
Qed.

(** ** meas_creation *)

Lemma to_actuals_keeps meas :
  meas_value (to_actuals meas) = meas_value meas
  /\ std_dev (to_actuals meas) = std_dev meas
  /\ meas_value_ideal (to_actuals meas) = meas_value_ideal meas
  /\ unc (to_actuals meas) = unc meas
  /\ meas_type (to_actuals meas) = meas_type meas
  /\ element (to_actuals meas) = element meas.
Proof.
  unfold to_actuals.
  repeat match goal with
  | |- context [if ?c then _ else _] => destruct c
  end; done.
Qed.

Lemma at_index_normal_zero g seed size index :
  at_index (random_normal g seed 0 0 size) index = 0.
Proof.
  unfold at_index, random_normal. rewrite list_lookup_fmap.
  destruct (seq 0 size !! index); simpl; lra.
Qed.

Lemma simulate_normal_zero_scale g seed size index meas :
  meas_value (simulate_normal (random_normal g seed 0 0 size) index meas)
  = meas_value_ideal meas.
Proof.
  unfold simulate_normal. rewrite at_index_normal_zero.
  destruct (type_in (meas_type meas) _); simpl; lra.
Qed.

(** C2: with [dist = "normal"] the error array is drawn with scale 0, so
    every measured value equals its ideal value, for every generator
    state and every seed: no perturbation is ever added. *)
Theorem meas_creation_normal_adds_no_noise :
  forall (g : RandomState) (ms : MeasurementSet) (seed : option N),
    map meas_value (meas_creation g ms "normal" seed "simulation")
    = map meas_value_ideal ms.
Proof.
  intros g ms seed. unfold meas_creation. simpl.
  apply list_eq. intros i.
  rewrite !list_lookup_fmap, list_lookup_imap.
  destruct (ms !! i) as [meas|]; simpl; [|done].
  f_equal. destruct (to_actuals_keeps
    (simulate_normal (random_normal g seed 0 0 (length ms)) i meas)) as [-> _].
  apply simulate_normal_zero_scale.
Qed.

Lemma simulate_normal_unc_zero err_pu index meas :
  unc meas = 0 ->
  meas_value (simulate_normal err_pu index meas) = meas_value_ideal meas
  /\ meas_value_ideal (simulate_normal err_pu index meas)
     = meas_value_ideal meas
  /\ std_dev (simulate_normal err_pu index meas) = 0.
Proof.
  intros Hu. unfold simulate_normal.
  destruct (type_in (meas_type meas) _); simpl; rewrite Hu;
    rewrite ?Rmult_0_r, ?Rabs_R0; repeat split; lra.
Qed.

Lemma simulate_uniform_unc_zero err_pu index meas :
  unc meas = 0 ->
  meas_value (simulate_uniform err_pu index meas) = meas_value_ideal meas
  /\ meas_value_ideal (simulate_uniform err_pu index meas)
     = meas_value_ideal meas
  /\ std_dev (simulate_uniform err_pu index meas) = 0.
Proof.
  intros Hu. unfold simulate_uniform.
  destruct (type_in (meas_type meas) _); simpl; rewrite Hu;
    rewrite ?Rmult_0_r, ?Rabs_R0; repeat split; lra.
Qed.

(** C7: in simulation mode, under either distribution and for any
    generator state and seed, a measurement of any type with [unc = 0]
    gets [meas_value = meas_value_ideal] and [std_dev = 0]. *)
Theorem meas_creation_unc_zero (g : RandomState) (ms : MeasurementSet)
    (dist : string) (seed : option N) (i : nat) (meas : Measurement) :
  dist = "normal" \/ dist = "uniform" ->
  ms !! i = Some meas ->
  unc meas = 0 ->
  exists meas',
    meas_creation g ms dist seed "simulation" !! i = Some meas'
    /\ meas_type meas' = meas_type meas
    /\ meas_value_ideal meas' = meas_value_ideal meas
    /\ meas_value meas' = meas_value_ideal meas'
    /\ std_dev meas' = 0.
Proof.
  intros Hd Hi Hu. unfold meas_creation.
  destruct Hd as [-> | ->]; simpl;
    rewrite list_lookup_fmap, list_lookup_imap, Hi; simpl;
    eexists; (split; [reflexivity|]).
  - destruct (to_actuals_keeps
      (simulate_normal (random_normal g seed 0 0 (length ms)) i meas))
      as (-> & -> & -> & _ & -> & _).
    destruct (simulate_normal_unc_zero
      (random_normal g seed 0 0 (length ms)) i meas Hu) as (-> & -> & ->).
    repeat split.
    unfold simulate_normal.
    by destruct (type_in (meas_type meas) _).
  - destruct (to_actuals_keeps
      (simulate_uniform (random_uniform g seed (-1) 1 (length ms)) i meas))
      as (-> & -> & -> & _ & -> & _).
    destruct (simulate_uniform_unc_zero
      (random_uniform g seed (-1) 1 (length ms)) i meas Hu) as (-> & -> & ->).
    repeat split.
    unfold simulate_uniform.
    by destruct (type_in (meas_type meas) _).
Qed.

Lemma meas_creation_unc_zero_witness :
  exists meas',
    meas_creation ones
      [Measurement_init node_N1 Node V_mag 1 1;
       Measurement_init node_N1 Node Vpmu_phase (1/4) 0]
      "uniform" (Some 7%N) "simulation" !! 1%nat = Some meas'
    /\ meas_type meas' = Vpmu_phase
    /\ meas_value_ideal meas' = 1/4
    /\ meas_value meas' = meas_value_ideal meas'
    /\ std_dev meas' = 0.
Proof.
  apply (meas_creation_unc_zero ones
           [Measurement_init node_N1 Node V_mag 1 1;
            Measurement_init node_N1 Node Vpmu_phase (1/4) 0]
           "uniform" (Some 7%N) 1%nat
           (Measurement_init node_N1 Node Vpmu_phase (1/4) 0)).
  - right; reflexivity.
  - reflexivity.
  - reflexivity.
Defined.

(** ** Weights and covariances *)

Lemma cut_pos : 0 < cut.
Proof.
  unfold cut. simpl. apply Rinv_0_lt_compat. lra.
Qed.

Lemma cut_std_dev_spec meas :
  std_dev (cut_std_dev meas) = Rmax (std_dev meas) cut
  /\ same_but_std_dev meas (cut_std_dev meas).
Proof.
  unfold cut_std_dev, same_but_std_dev.
  destruct (Rlt_dec (std_dev meas) cut) as [Hlt|Hge]; simpl.
  - split; [|done]. symmetry. apply Rmax_right. lra.
  - split; [|done]. symmetry. apply Rmax_left. lra.
Qed.

Lemma cut_std_dev_act_spec meas :
  std_dev_act (cut_std_dev_act meas) = Rmax (std_dev_act meas) cut
  /\ same_but_std_dev_act meas (cut_std_dev_act meas).
Proof.
  unfold cut_std_dev_act, same_but_std_dev_act.
  destruct (Rlt_dec (std_dev_act meas) cut) as [Hlt|Hge]; simpl.
  - split; [|done]. symmetry. apply Rmax_right. lra.
  - split; [|done]. symmetry. apply Rmax_left. lra.
Qed.

Lemma cut_std_dev_idemp meas :
  cut_std_dev (cut_std_dev meas) = cut_std_dev meas.
Proof.
  unfold cut_std_dev at 1.
  destruct (Rlt_dec (std_dev (cut_std_dev meas)) cut) as [Hlt|]; [|done].
  destruct (cut_std_dev_spec meas) as [Hs _]. rewrite Hs in Hlt.
  pose proof (Rmax_r (std_dev meas) cut). lra.
Qed.

Lemma cut_std_dev_act_idemp meas :
  cut_std_dev_act (cut_std_dev_act meas) = cut_std_dev_act meas.
Proof.
  unfold cut_std_dev_act at 1.
  destruct (Rlt_dec (std_dev_act (cut_std_dev_act meas)) cut) as [Hlt|]; [|done].
  destruct (cut_std_dev_act_spec meas) as [Hs _]. rewrite Hs in Hlt.
  pose proof (Rmax_r (std_dev_act meas) cut). lra.
Qed.

(** The arrays do not depend on which of the two methods ran first. *)
Lemma getCovarianceMatrix_after_weights (ms : MeasurementSet) :
  getCovarianceMatrix (snd (getWeightsMatrix ms)) = getCovarianceMatrix ms.
Proof.
  unfold getCovarianceMatrix, getWeightsMatrix. simpl.
  assert (H : map cut_std_dev (map cut_std_dev ms) = map cut_std_dev ms).
  { induction ms as [|m ms IH]; simpl; [done|].
    by rewrite cut_std_dev_idemp, IH. }
  by rewrite H.
Qed.

Lemma getCovarianceMatrixActuals_after_weights (ms : MeasurementSet) :
  getCovarianceMatrixActuals (snd (getWeightsMatrixActuals ms))
  = getCovarianceMatrixActuals ms.
Proof.
  unfold getCovarianceMatrixActuals, getWeightsMatrixActuals. simpl.
  assert (H : map cut_std_dev_act (map cut_std_dev_act ms)
              = map cut_std_dev_act ms).
  { induction ms as [|m ms IH]; simpl; [done|].
    by rewrite cut_std_dev_act_idemp, IH. }
  by rewrite H.
Qed.

(** C4 as stated fails: a stored standard deviation of zero is replaced
    by the cut value when the weights are read. *)
Lemma getWeightsMatrix_overwrites_std_dev :
  ~ (map std_dev (snd (getWeightsMatrix
                         [Measurement_init node_N1 Node V_mag 1 0]))
     = map std_dev [Measurement_init node_N1 Node V_mag 1 0]
     /\ map std_dev_act (snd (getWeightsMatrixActuals
                         [Measurement_init node_N1 Node V_mag 1 0]))
        = map std_dev_act [Measurement_init node_N1 Node V_mag 1 0]).
Proof.
  intros [H _]. unfold getWeightsMatrix in H. simpl in H.
  unfold cut_std_dev in H. simpl in H.
  pose proof cut_pos as Hc.
  destruct (Rlt_dec 0 cut) as [_|Hn]; [|lra].
  simpl in H. injection H as H. lra.
Qed.

(** C4, amended: the weight and covariance methods write the cut value
    into the stored field they read.  Per-unit methods leave
    [max std_dev cut] in [std_dev] and nothing else changed;
    actual-unit methods leave [max std_dev_act cut] in [std_dev_act] and
    nothing else changed. *)
Theorem weights_and_covariances_store_the_cut (ms : MeasurementSet)
    (i : nat) (meas : Measurement) :
  ms !! i = Some meas ->
  (exists m1, snd (getWeightsMatrix ms) !! i = Some m1
     /\ std_dev m1 = Rmax (std_dev meas) cut /\ same_but_std_dev meas m1)
  /\ (exists m2, snd (getCovarianceMatrix ms) !! i = Some m2
     /\ std_dev m2 = Rmax (std_dev meas) cut /\ same_but_std_dev meas m2)
  /\ (exists m3, snd (getWeightsMatrixActuals ms) !! i = Some m3
     /\ std_dev_act m3 = Rmax (std_dev_act meas) cut
     /\ same_but_std_dev_act meas m3)
  /\ (exists m4, snd (getCovarianceMatrixActuals ms) !! i = Some m4
     /\ std_dev_act m4 = Rmax (std_dev_act meas) cut
     /\ same_but_std_dev_act meas m4).
Proof.
  intros Hi.
  unfold getWeightsMatrix, getCovarianceMatrix, getWeightsMatrixActuals,
    getCovarianceMatrixActuals; simpl.
  rewrite !list_lookup_fmap, Hi; simpl.
  pose proof (cut_std_dev_spec meas) as [? ?].
  pose proof (cut_std_dev_act_spec meas) as [? ?].
  repeat split; eexists; (split; [reflexivity|]); done.
Qed.

Lemma weights_and_covariances_store_the_cut_witness :
  (exists m1, snd (getWeightsMatrix
                [Measurement_init node_N1 Node V_mag 1 0]) !! 0%nat = Some m1
     /\ std_dev m1 = Rmax 0 cut
     /\ same_but_std_dev (Measurement_init node_N1 Node V_mag 1 0) m1)
  /\ (exists m2, snd (getCovarianceMatrix
                [Measurement_init node_N1 Node V_mag 1 0]) !! 0%nat = Some m2
     /\ std_dev m2 = Rmax 0 cut
     /\ same_but_std_dev (Measurement_init node_N1 Node V_mag 1 0) m2)
  /\ (exists m3, snd (getWeightsMatrixActuals
                [Measurement_init node_N1 Node V_mag 1 0]) !! 0%nat = Some m3
     /\ std_dev_act m3 = Rmax 0 cut
     /\ same_but_std_dev_act (Measurement_init node_N1 Node V_mag 1 0) m3)
  /\ (exists m4, snd (getCovarianceMatrixActuals
                [Measurement_init node_N1 Node V_mag 1 0]) !! 0%nat = Some m4
     /\ std_dev_act m4 = Rmax 0 cut
     /\ same_but_std_dev_act (Measurement_init node_N1 Node V_mag 1 0) m4).
Proof.
  apply (weights_and_covariances_store_the_cut
           [Measurement_init node_N1 Node V_mag 1 0] 0%nat
           (Measurement_init node_N1 Node V_mag 1 0)).
  reflexivity.
Defined.

(** ** Unit conversions *)

Lemma sqrt3_pos : 0 < sqrt 3.
Proof. apply sqrt_lt_R0. lra. Qed.

Lemma py_div_mult x y : y <> 0 -> py_div (x * y) y = Some x.
Proof.
  intros Hy. unfold py_div. destruct (Req_dec_T y 0); [done|].
  f_equal. field. done.
Qed.

Lemma to_actuals_inverse (meas : Measurement) :
  baseVoltage (element meas) <> 0 ->
  base_current (element meas) <> 0 ->
  base_apparent_power (element meas) <> 0 ->
  (type_in (meas_type meas) type_volt = true ->
     meas_value_act (to_actuals meas)
     = meas_value meas * (baseVoltage (element meas) / sqrt 3)
     /\ meas_value_act (to_actuals meas) / volt_base (element meas)
        = meas_value meas)
  /\ (type_in (meas_type meas) type_curr = true ->
     meas_value_act (to_actuals meas)
     = meas_value meas * base_current (element meas)
     /\ py_div (meas_value_act (to_actuals meas)) (curr_base (element meas))
        = Some (meas_value meas))
  /\ (type_in (meas_type meas) type_power = true ->
     meas_value_act (to_actuals meas)
     = meas_value meas * (base_apparent_power (element meas) / 3)
     /\ py_div (meas_value_act (to_actuals meas)) (power_base (element meas))
        = Some (meas_value meas))
  /\ (type_in (meas_type meas) type_phase = true ->
     meas_value_act (to_actuals meas) = meas_value meas).
Proof.
  intros Hv Hc Hp. pose proof sqrt3_pos as Hs.
  assert (Hvb : volt_base (element meas) <> 0).
  { unfold volt_base. intros H.
    apply Hv. apply (Rmult_eq_reg_r (/ sqrt 3)).
    - rewrite Rmult_0_l. exact H.
    - apply Rinv_neq_0_compat. lra. }
  assert (Hpb : power_base (element meas) <> 0).
  { unfold power_base. lra. }
  unfold to_actuals.
  destruct (meas_type meas); refine (conj _ (conj _ (conj _ _)));
    intros Ht; vm_compute in Ht; try discriminate Ht; simpl;
    try reflexivity; (split; [reflexivity|]);
    try (apply py_div_mult; assumption);
    field; assumption.
Qed.

(** The same law through the two methods: after [meas_creation] has
    filled the actual value, a live update that feeds this actual value
    back (not per unit) to a measurement it matches restores the
    per-unit value. *)
Lemma update_body_restores_per_unit element_uuid mt meas :
  baseVoltage (element meas) <> 0 ->
  base_current (element meas) <> 0 ->
  base_apparent_power (element meas) <> 0 ->
  matches element_uuid mt meas = true ->
  exists meas',
    update_body element_uuid mt (meas_value_act (to_actuals meas)) false
      (to_actuals meas) = Some meas'
    /\ meas_value meas' = meas_value meas
    /\ meas_value_act meas' = meas_value_act (to_actuals meas).
Proof.
  intros Hv Hc Hp Hm.
  destruct (to_actuals_inverse meas Hv Hc Hp) as (Cv & Cc & Cp & Cph).
  destruct (to_actuals_keeps meas) as (Kv & _ & _ & _ & Kt & Ke).
  unfold matches in Hm. unfold update_body. rewrite Ke, Kt.
  destruct (bool_decide (uuid (element meas) = element_uuid));
    [|discriminate Hm].
  destruct mt; simpl in Hm; try discriminate Hm;
    destruct (meas_type meas) eqn:Et; simpl in Hm; try discriminate Hm;
    simpl.
  all: first
    [ destruct (Cv eq_refl) as [_ ->]; eexists; split; [reflexivity|]; done
    | destruct (Cc eq_refl) as [_ ->]; eexists; split; [reflexivity|]; done
    | destruct (Cp eq_refl) as [_ ->]; eexists; split; [reflexivity|]; done
    | eexists; split; [reflexivity|]; simpl; split; [exact (Cph eq_refl)|done] ].
Qed.

(** ** Selection by type and sorting *)

Lemma getMeasurementsOfType_filter (ms : MeasurementSet) type :
  getMeasurementsOfType ms type = filter (fun m => meas_type m = type) ms.
Proof.
  unfold getMeasurementsOfType.
  enough (H : forall acc : list Measurement,
             foldl (fun measurements measurement =>
                      if bool_decide (meas_type measurement = type)
                      then measurements ++ [measurement] else measurements)
                   acc ms
             = acc ++ filter (fun m => meas_type m = type) ms)
    by apply (H []).
  induction ms as [|m ms IH]; intros acc; simpl.
  - by rewrite app_nil_r.
  - rewrite IH, filter_cons. unfold bool_decide.
    destruct (decide_rel eq (meas_type m) type) as [Heq|Hne];
      destruct (decide (meas_type m = type)); try done.
    by rewrite <- app_assoc.
Qed.

Lemma filter_type_twice (ms : MeasurementSet) t t' :
  filter (fun m => meas_type m = t) (filter (fun m => meas_type m = t') ms)
  = if decide (t = t') then filter (fun m => meas_type m = t') ms else [].
Proof.
  induction ms as [|m ms IH]; simpl.
  - by destruct (decide (t = t')).
  - rewrite (filter_cons _ m ms).
    destruct (decide (meas_type m = t')) as [Ht'|Ht'].
    + rewrite filter_cons, IH.
      destruct (decide (meas_type m = t)) as [Ht|Ht];
        destruct (decide (t = t')); congruence.
    + exact IH.
Qed.

Lemma getSortedMeasurementSet_unfold (ms : MeasurementSet) :
  getSortedMeasurementSet ms
  = mjoin (map (fun t => filter (fun m => meas_type m = t) ms) sorted_types).
Proof.
  unfold getSortedMeasurementSet, MeasurementSet_init, sorted_types. simpl.
  rewrite !getMeasurementsOfType_filter, app_nil_r, <- !app_assoc.
  reflexivity.
Qed.

Lemma filter_sorted (ms : MeasurementSet) t :
  filter (fun m => meas_type m = t) (getSortedMeasurementSet ms)
  = filter (fun m => meas_type m = t) ms.
Proof.
  rewrite getSortedMeasurementSet_unfold. unfold sorted_types. simpl.
  rewrite !filter_app, filter_nil, !filter_type_twice.
  destruct t; simpl; rewrite ?app_nil_r; reflexivity.
Qed.

Lemma length_sorted (ms : MeasurementSet) :
  length (getSortedMeasurementSet ms) = length ms.
Proof.
  rewrite getSortedMeasurementSet_unfold. unfold sorted_types. simpl.
  rewrite !length_app. simpl.
  induction ms as [|m ms IH]; [reflexivity|].
  rewrite !(filter_cons _ m ms).
  destruct (meas_type m); simpl; lia.
Qed.

(** C5: sorting a sorted set gives the same measurements in the same
    order, and sorting keeps the number of measurements. *)
Theorem getSortedMeasurementSet_idempotent :
  forall ms : MeasurementSet,
    getSortedMeasurementSet (getSortedMeasurementSet ms)
    = getSortedMeasurementSet ms
    /\ length (getSortedMeasurementSet ms) = length ms.
Proof.
  intros ms. split; [|apply length_sorted].
  rewrite (getSortedMeasurementSet_unfold (getSortedMeasurementSet ms)).
  unfold sorted_types. simpl. rewrite !filter_sorted.
  rewrite (getSortedMeasurementSet_unfold ms). reflexivity.
Qed.

(** ** Index arrays *)

Lemma getNumberOfMeasurements_length (ms : MeasurementSet) type k :
  getNumberOfMeasurements ms type = length (indices_from type k ms).
Proof.
  unfold getNumberOfMeasurements.
  enough (H : forall n k,
             foldl (fun number measurement =>
                      if bool_decide (meas_type measurement = type)
                      then (number + 1)%nat else number) n ms
             = (n + length (indices_from type k ms))%nat)
    by apply (H 0%nat).
  induction ms as [|m ms IH]; intros n k'; simpl; [lia|].
  rewrite (IH _ (S k')). unfold bool_decide.
  destruct (decide_rel eq (meas_type m) type);
    destruct (decide (meas_type m = type)); try done; simpl; lia.
Qed.

Lemma index_fill (ms : MeasurementSet) type : forall (pre : list nat) k n,
  (length (indices_from type k ms) <= n)%nat ->
  fst (foldl (fun '(idx, i) '(index, measurement) =>
                if bool_decide (meas_type (measurement : Measurement) = type)
                then (<[i := index]> idx, (i + 1)%nat) else (idx, i))
             (pre ++ replicate n 0%nat, length pre)
             (zip (seq k (length ms)) ms))
  = pre ++ indices_from type k ms
        ++ replicate (n - length (indices_from type k ms)) 0%nat.
Proof.
  induction ms as [|m ms IH]; intros pre k n Hn; simpl.
  - by rewrite Nat.sub_0_r.
  - simpl in Hn. unfold bool_decide.
    destruct (decide_rel eq (meas_type m) type);
      destruct (decide (meas_type m = type)); try done.
    + simpl in Hn. destruct n as [|n]; [lia|]. simpl.
      rewrite insert_app_r_alt by lia. rewrite Nat.sub_diag. simpl.
      replace (pre ++ k :: replicate n 0%nat)
        with ((pre ++ [k]) ++ replicate n 0%nat) by by rewrite <- app_assoc.
      replace (length pre + 1)%nat with (length (pre ++ [k]))
        by (rewrite length_app; simpl; lia).
      rewrite IH by lia. by rewrite <- app_assoc.
    + by rewrite IH.
Qed.

Lemma getIndexOfMeasurements_indices (ms : MeasurementSet) type :
  getIndexOfMeasurements ms type = indices_from type 0 ms.
Proof.
  unfold getIndexOfMeasurements, enumerate.
  rewrite (getNumberOfMeasurements_length ms type 0).
  etrans; [exact (index_fill ms type [] 0 _ (le_n _))|].
  rewrite Nat.sub_diag. simpl. by rewrite app_nil_r.
Qed.

Lemma indices_from_lookup type (ms : MeasurementSet) : forall k n i,
  indices_from type k ms !! n = Some i ->
  (k <= i)%nat
  /\ exists m, ms !! (i - k)%nat = Some m /\ meas_type m = type
       /\ filter (fun m => meas_type m = type) ms !! n = Some m.
Proof.
  induction ms as [|m ms IH]; intros k n i H; simpl in H; [done|].
  rewrite filter_cons.
  destruct (decide (meas_type m = type)) as [Ht|Ht].
  - destruct n as [|n]; simpl in H.
    + injection H as <-. split; [lia|]. exists m.
      rewrite Nat.sub_diag. done.
    + apply IH in H as (Hk & m' & Hm' & Ht' & Hf). split; [lia|].
      exists m'. replace (i - k)%nat with (S (i - S k)) by lia. done.
  - apply IH in H as (Hk & m' & Hm' & Ht' & Hf). split; [lia|].
    exists m'. replace (i - k)%nat with (S (i - S k)) by lia. done.
Qed.

Lemma indices_from_lt type (ms : MeasurementSet) : forall k n n' i i',
  (n < n')%nat ->
  indices_from type k ms !! n = Some i ->
  indices_from type k ms !! n' = Some i' ->
  (i < i')%nat.
Proof.
  induction ms as [|m ms IH]; intros k n n' i i' Hn H H'; simpl in *; [done|].
  destruct (decide (meas_type m = type)).
  - destruct n' as [|n']; [lia|]. simpl in H'.
    destruct n as [|n]; simpl in H.
    + injection H as <-. apply indices_from_lookup in H'. lia.
    + eapply IH; [|exact H|exact H']. lia.
  - eapply IH; eauto.
Qed.

Lemma indices_from_inj type (ms : MeasurementSet) k n n' i :
  indices_from type k ms !! n = Some i ->
  indices_from type k ms !! n' = Some i ->
  n = n'.
Proof.
  intros H H'.
  destruct (Nat.lt_trichotomy n n') as [Hlt|[Heq|Hgt]]; [|done|].
  - pose proof (indices_from_lt _ _ _ _ _ _ _ Hlt H H'). lia.
  - pose proof (indices_from_lt _ _ _ _ _ _ _ Hgt H' H). lia.
Qed.

Lemma indices_from_length type (ms : MeasurementSet) k :
  length (indices_from type k ms)
  = length (filter (fun m => meas_type m = type) ms).
Proof.
  revert k. induction ms as [|m ms IH]; intros k; simpl; [done|].
  rewrite filter_cons.
  destruct (decide (meas_type m = type)); simpl; by rewrite IH.
Qed.

Lemma getIndexOfMeasurements_lookup (ms : MeasurementSet) type n i :
  getIndexOfMeasurements ms type !! n = Some i ->
  exists m, ms !! i = Some m /\ meas_type m = type
    /\ getMeasurementsOfType ms type !! n = Some m.
Proof.
  rewrite getIndexOfMeasurements_indices, getMeasurementsOfType_filter.
  intros H. apply indices_from_lookup in H as (_ & m & Hm & Ht & Hf).
  rewrite Nat.sub_0_r in Hm. eauto.
Qed.

Lemma getIndexOfMeasurements_inj (ms : MeasurementSet) type n n' i :
  getIndexOfMeasurements ms type !! n = Some i ->
  getIndexOfMeasurements ms type !! n' = Some i ->
  n = n'.
Proof.
  rewrite getIndexOfMeasurements_indices. apply indices_from_inj.
Qed.

Lemma getIndexOfMeasurements_length (ms : MeasurementSet) type :
  length (getIndexOfMeasurements ms type)
  = length (getMeasurementsOfType ms type).
Proof.
  rewrite getIndexOfMeasurements_indices, getMeasurementsOfType_filter.
  apply indices_from_length.
Qed.

(** ** Replacement loops *)

Lemma replace_pmu_fold (ms : MeasurementSet) value mag_type phase_type acc :
  replace_pmu ms value mag_type phase_type acc
  = foldl (pmu_step ms value) acc
      (zip (getIndexOfMeasurements ms mag_type)
           (getIndexOfMeasurements ms phase_type)).
Proof. reflexivity. Qed.

Lemma pmu_step_length (ms : MeasurementSet) value acc p :
  length (pmu_step ms value acc p) = length acc.
Proof.
  destruct p as [a b]. unfold pmu_step.
  destruct (ms !! a), (ms !! b); rewrite ?length_insert; done.
Qed.

Lemma pmu_fold_length (ms : MeasurementSet) value ps : forall acc,
  length (foldl (pmu_step ms value) acc ps) = length acc.
Proof.
  induction ps as [|p ps IH]; intros acc; simpl; [done|].
  by rewrite IH, pmu_step_length.
Qed.

Lemma pmu_step_other (ms : MeasurementSet) value acc a b j :
  j <> a -> j <> b -> pmu_step ms value acc (a, b) !! j = acc !! j.
Proof.
  intros Ha Hb. unfold pmu_step.
  destruct (ms !! a), (ms !! b); try done.
  by rewrite !list_lookup_insert_ne by done.
Qed.

Lemma pmu_fold_other (ms : MeasurementSet) value ps : forall acc j,
  (forall n a b, ps !! n = Some (a, b) -> j <> a /\ j <> b) ->
  foldl (pmu_step ms value) acc ps !! j = acc !! j.
Proof.
  induction ps as [|[a b] ps IH]; intros acc j H; simpl; [done|].
  rewrite IH by (intros n a' b' Hn; exact (H (S n) a' b' Hn)).
  destruct (H 0%nat a b eq_refl). by apply pmu_step_other.
Qed.

Lemma pmu_fold_pair (ms : MeasurementSet) value ps :
  forall acc n a b mag phase,
  (forall n n' a b a' b',
      ps !! n = Some (a, b) -> ps !! n' = Some (a', b') ->
      a <> b' /\ (n <> n' -> a <> a' /\ b <> b')) ->
  length acc = length ms ->
  ps !! n = Some (a, b) ->
  ms !! a = Some mag -> ms !! b = Some phase ->
  foldl (pmu_step ms value) acc ps !! a = Some (value mag * cos (value phase))
  /\ foldl (pmu_step ms value) acc ps !! b
     = Some (value mag * sin (value phase)).
Proof.
  induction ps as [|[a0 b0] ps IH]; intros acc n a b mag phase Hsep Hlen Hn Ha Hb;
    [done|].
  assert (Hsep' : forall n n' a b a' b',
             ps !! n = Some (a, b) -> ps !! n' = Some (a', b') ->
             a <> b' /\ (n <> n' -> a <> a' /\ b <> b')).
  { intros k k' x y x' y' Hk Hk'.
    destruct (Hsep (S k) (S k') x y x' y' Hk Hk') as [? Hd].
    split; [done|]. intros ?. apply Hd. lia. }
  destruct n as [|n]; simpl in *.
  - injection Hn as -> ->.
    destruct (Hsep 0%nat 0%nat a b a b eq_refl eq_refl) as [Hab _].
    rewrite !pmu_fold_other.
    + unfold pmu_step. rewrite Ha, Hb.
      apply lookup_lt_Some in Ha, Hb.
      rewrite list_lookup_insert_ne by done.
      rewrite !list_lookup_insert_eq; rewrite ?length_insert; try lia.
      done.
    + intros k x y Hk.
      destruct (Hsep 0%nat (S k) a b x y eq_refl Hk) as [_ Hd].
      destruct (Hsep (S k) 0%nat x y a b Hk eq_refl) as [Hxb _].
      destruct Hd; [lia|]. split; congruence.
    + intros k x y Hk.
      destruct (Hsep 0%nat (S k) a b x y eq_refl Hk) as [Hay Hd].
      destruct Hd; [lia|]. split; congruence.
  - apply (IH _ n); try done.
    rewrite <- Hlen. exact (pmu_step_length ms value acc (a0, b0)).
Qed.

Lemma index_arrays_separate (ms : MeasurementSet) mag_type phase_type :
  mag_type <> phase_type ->
  forall n n' a b a' b',
    zip (getIndexOfMeasurements ms mag_type)
        (getIndexOfMeasurements ms phase_type) !! n = Some (a, b) ->
    zip (getIndexOfMeasurements ms mag_type)
        (getIndexOfMeasurements ms phase_type) !! n' = Some (a', b') ->
    a <> b' /\ (n <> n' -> a <> a' /\ b <> b').
Proof.
  intros Hne n n' a b a' b' H H'.
  apply lookup_zip_with_Some in H as (x & y & [= -> ->] & Hx & Hy).
  apply lookup_zip_with_Some in H' as (x' & y' & [= -> ->] & Hx' & Hy').
  split.
  - intros ->.
    apply getIndexOfMeasurements_lookup in Hx as (m & Hm & Ht & _).
    apply getIndexOfMeasurements_lookup in Hy' as (m' & Hm' & Ht' & _).
    congruence.
  - intros Hn. split; intros ->; apply Hn.
    + exact (getIndexOfMeasurements_inj _ _ _ _ _ Hx Hx').
    + exact (getIndexOfMeasurements_inj _ _ _ _ _ Hy Hy').
Qed.

Lemma replace_pmu_length (ms : MeasurementSet) value mag_type phase_type acc :
  length (replace_pmu ms value mag_type phase_type acc) = length acc.
Proof. rewrite replace_pmu_fold. apply pmu_fold_length. Qed.

Lemma replace_pmu_pair (ms : MeasurementSet) value mag_type phase_type
    acc n a b :
  mag_type <> phase_type ->
  length acc = length ms ->
  getIndexOfMeasurements ms mag_type !! n = Some a ->
  getIndexOfMeasurements ms phase_type !! n = Some b ->
  rectangular_at ms value (replace_pmu ms value mag_type phase_type acc) a b.
Proof.
  intros Hne Hlen Ha Hb.
  destruct (getIndexOfMeasurements_lookup _ _ _ _ Ha) as (mag & Hmag & _).
  destruct (getIndexOfMeasurements_lookup _ _ _ _ Hb) as (phase & Hph & _).
  exists mag, phase. split; [done|]. split; [done|].
  rewrite replace_pmu_fold.
  apply (pmu_fold_pair ms value _ acc n a b mag phase); try done.
  - by apply index_arrays_separate.
  - apply lookup_zip_with_Some. eauto.
Qed.

(** A slot that is in no zipped pair keeps its value. *)
Lemma replace_pmu_other (ms : MeasurementSet) value mag_type phase_type acc j :
  (forall n a b,
      getIndexOfMeasurements ms mag_type !! n = Some a ->
      getIndexOfMeasurements ms phase_type !! n = Some b ->
      j <> a /\ j <> b) ->
  replace_pmu ms value mag_type phase_type acc !! j = acc !! j.
Proof.
  intros H. rewrite replace_pmu_fold. apply pmu_fold_other.
  intros n a b Hn.
  apply lookup_zip_with_Some in Hn as (x & y & [= -> ->] & Hx & Hy).
  eauto.
Qed.

Lemma replace_pmu_other_type (ms : MeasurementSet) value mag_type phase_type
    acc j m :
  ms !! j = Some m ->
  meas_type m <> mag_type -> meas_type m <> phase_type ->
  replace_pmu ms value mag_type phase_type acc !! j = acc !! j.
Proof.
  intros Hj Hm Hp. apply replace_pmu_other. intros n a b Ha Hb.
  apply getIndexOfMeasurements_lookup in Ha as (ma & Hma & Hta & _).
  apply getIndexOfMeasurements_lookup in Hb as (mb & Hmb & Htb & _).
  split; intros ->; congruence.
Qed.

Lemma replace_pmu_unpaired_mag (ms : MeasurementSet) value mag_type phase_type
    acc n a :
  mag_type <> phase_type ->
  getIndexOfMeasurements ms mag_type !! n = Some a ->
  getIndexOfMeasurements ms phase_type !! n = None ->
  replace_pmu ms value mag_type phase_type acc !! a = acc !! a.
Proof.
  intros Hne Ha Hnone. apply replace_pmu_other. intros k x y Hx Hy.
  split; intros <-.
  - assert (n = k) by exact (getIndexOfMeasurements_inj _ _ _ _ _ Ha Hx).
    congruence.
  - apply getIndexOfMeasurements_lookup in Ha as (ma & Hma & Hta & _).
    apply getIndexOfMeasurements_lookup in Hy as (mb & Hmb & Htb & _).
    congruence.
Qed.

Lemma replace_pmu_unpaired_phase (ms : MeasurementSet) value
    mag_type phase_type acc n b :
  mag_type <> phase_type ->
  getIndexOfMeasurements ms phase_type !! n = Some b ->
  getIndexOfMeasurements ms mag_type !! n = None ->
  replace_pmu ms value mag_type phase_type acc !! b = acc !! b.
Proof.
  intros Hne Hb Hnone. apply replace_pmu_other. intros k x y Hx Hy.
  split; intros <-.
  - apply getIndexOfMeasurements_lookup in Hb as (mb & Hmb & Htb & _).
    apply getIndexOfMeasurements_lookup in Hx as (ma & Hma & Hta & _).
    congruence.
  - assert (n = k) by exact (getIndexOfMeasurements_inj _ _ _ _ _ Hb Hy).
    congruence.
Qed.

(** ** Measurement vectors *)

Lemma meas_vector_length (ms : MeasurementSet) value :
  length (meas_vector ms value) = length ms.
Proof.
  unfold meas_vector. by rewrite !replace_pmu_length, length_map.
Qed.

Lemma rectangular_at_same (ms : MeasurementSet) value out out' a b :
  out' !! a = out !! a -> out' !! b = out !! b ->
  rectangular_at ms value out a b -> rectangular_at ms value out' a b.
Proof.
  intros Ea Eb (mag & phase & ? & ? & ? & ?).
  exists mag, phase. rewrite Ea, Eb. done.
Qed.

Lemma meas_vector_pair (ms : MeasurementSet) value mag_type phase_type n a b :
  (mag_type, phase_type) ∈ pmu_families ->
  getIndexOfMeasurements ms mag_type !! n = Some a ->
  getIndexOfMeasurements ms phase_type !! n = Some b ->
  rectangular_at ms value (meas_vector ms value) a b.
Proof.
  intros Hf Ha Hb.
  destruct (getIndexOfMeasurements_lookup _ _ _ _ Ha) as (mag & Hmag & Tmag & _).
  destruct (getIndexOfMeasurements_lookup _ _ _ _ Hb) as (ph & Hph & Tph & _).
  unfold meas_vector, pmu_families in *.
  repeat (apply elem_of_cons in Hf as [[= -> ->] | Hf]);
    [| | |by apply elem_of_nil in Hf].
  - assert (H1 : rectangular_at ms value
                   (replace_pmu ms value Vpmu_mag Vpmu_phase (map value ms))
                   a b).
    { apply (replace_pmu_pair _ _ _ _ _ n); try done. by rewrite length_map. }
    revert H1. apply rectangular_at_same.
    + rewrite (replace_pmu_other_type _ _ _ _ _ _ mag) by (done || congruence).
      by rewrite (replace_pmu_other_type _ _ _ _ _ _ mag)
        by (done || congruence).
    + rewrite (replace_pmu_other_type _ _ _ _ _ _ ph) by (done || congruence).
      by rewrite (replace_pmu_other_type _ _ _ _ _ _ ph)
        by (done || congruence).
  - assert (H2 : rectangular_at ms value
                   (replace_pmu ms value Ipmu_mag Ipmu_phase
                      (replace_pmu ms value Vpmu_mag Vpmu_phase
                         (map value ms)))
                   a b).
    { apply (replace_pmu_pair _ _ _ _ _ n); try done.
      by rewrite replace_pmu_length, length_map. }
    revert H2. apply rectangular_at_same.
    + by rewrite (replace_pmu_other_type _ _ _ _ _ _ mag)
        by (done || congruence).
    + by rewrite (replace_pmu_other_type _ _ _ _ _ _ ph)
        by (done || congruence).
  - apply (replace_pmu_pair _ _ _ _ _ n); try done.
    by rewrite !replace_pmu_length, length_map.
Qed.

(** A slot that no family pairs keeps the stored value. *)
Lemma meas_vector_other (ms : MeasurementSet) value j :
  (forall mag_type phase_type n a b,
      (mag_type, phase_type) ∈ pmu_families ->
      getIndexOfMeasurements ms mag_type !! n = Some a ->
      getIndexOfMeasurements ms phase_type !! n = Some b ->
      j <> a /\ j <> b) ->
  meas_vector ms value !! j = value <$> ms !! j.
Proof.
  intros H. unfold meas_vector.
  rewrite !replace_pmu_other, list_lookup_fmap; [done|..];
    intros n a b; apply H; unfold pmu_families;
    rewrite !elem_of_cons; tauto.
Qed.

Lemma meas_vector_other_type (ms : MeasurementSet) value j m :
  ms !! j = Some m ->
  meas_type m ∉ pmu_types ->
  meas_vector ms value !! j = Some (value m).
Proof.
  intros Hj Ht. rewrite meas_vector_other, Hj; [done|].
  intros mt pt n a b Hf Ha Hb.
  apply getIndexOfMeasurements_lookup in Ha as (ma & Hma & Hta & _).
  apply getIndexOfMeasurements_lookup in Hb as (mb & Hmb & Htb & _).
  assert (mt ∈ pmu_types /\ pt ∈ pmu_types) as [Hmt Hpt].
  { unfold pmu_families, pmu_types in *.
    repeat (apply elem_of_cons in Hf as [[= -> ->] | Hf]);
      [| | |by apply elem_of_nil in Hf];
      rewrite !elem_of_cons; tauto. }
  split; intros ->; congruence.
Qed.

Lemma family_types_differ mag_type phase_type mag_type' phase_type' :
  (mag_type, phase_type) ∈ pmu_families ->
  (mag_type', phase_type') ∈ pmu_families ->
  mag_type <> phase_type'
  /\ (mag_type = mag_type' -> phase_type = phase_type')
  /\ (phase_type = phase_type' -> mag_type = mag_type').
Proof.
  unfold pmu_families. intros H H'.
  repeat (apply elem_of_cons in H as [[= -> ->] | H]);
    [| | |by apply elem_of_nil in H];
    repeat (apply elem_of_cons in H' as [[= -> ->] | H']);
    try (by apply elem_of_nil in H'); done.
Qed.

Lemma meas_vector_unpaired_mag (ms : MeasurementSet) value
    mag_type phase_type n a :
  (mag_type, phase_type) ∈ pmu_families ->
  getIndexOfMeasurements ms mag_type !! n = Some a ->
  getIndexOfMeasurements ms phase_type !! n = None ->
  meas_vector ms value !! a = value <$> ms !! a.
Proof.
  intros Hf Ha Hnone. apply meas_vector_other.
  intros mt pt k x y Hf' Hx Hy.
  destruct (family_types_differ _ _ _ _ Hf Hf') as (Hd & Hm & _).
  destruct (getIndexOfMeasurements_lookup _ _ _ _ Ha) as (ma & Hma & Hta & _).
  split; intros <-.
  - destruct (getIndexOfMeasurements_lookup _ _ _ _ Hx) as (mx & Hmx & Htx & _).
    assert (mag_type = mt) as <- by congruence.
    rewrite <- (Hm eq_refl) in Hy.
    assert (n = k) by exact (getIndexOfMeasurements_inj _ _ _ _ _ Ha Hx).
    congruence.
  - destruct (getIndexOfMeasurements_lookup _ _ _ _ Hy) as (my & Hmy & Hty & _).
    congruence.
Qed.

Lemma meas_vector_unpaired_phase (ms : MeasurementSet) value
    mag_type phase_type n b :
  (mag_type, phase_type) ∈ pmu_families ->
  getIndexOfMeasurements ms phase_type !! n = Some b ->
  getIndexOfMeasurements ms mag_type !! n = None ->
  meas_vector ms value !! b = value <$> ms !! b.
Proof.
  intros Hf Hb Hnone. apply meas_vector_other.
  intros mt pt k x y Hf' Hx Hy.
  destruct (family_types_differ _ _ _ _ Hf' Hf) as (Hd & _ & Hp).
  destruct (getIndexOfMeasurements_lookup _ _ _ _ Hb) as (mb & Hmb & Htb & _).
  split; intros <-.
  - destruct (getIndexOfMeasurements_lookup _ _ _ _ Hx) as (mx & Hmx & Htx & _).
    congruence.
  - destruct (getIndexOfMeasurements_lookup _ _ _ _ Hy) as (my & Hmy & Hty & _).
    assert (pt = phase_type) as -> by congruence.
    rewrite (Hp eq_refl) in Hx.
    assert (n = k) by exact (getIndexOfMeasurements_inj _ _ _ _ _ Hb Hy).
    congruence.
Qed.

Lemma getMeasurementsOfType_index (ms : MeasurementSet) type n m :
  getMeasurementsOfType ms type !! n = Some m ->
  exists i, getIndexOfMeasurements ms type !! n = Some i /\ ms !! i = Some m.
Proof.
  intros Hm.
  destruct (getIndexOfMeasurements ms type !! n) as [i|] eqn:Hi.
  - exists i. split; [done|].
    apply getIndexOfMeasurements_lookup in Hi as (m' & Hm' & _ & Hf).
    congruence.
  - apply lookup_ge_None in Hi. apply lookup_lt_Some in Hm.
    rewrite getIndexOfMeasurements_length in Hi. lia.
Qed.

(** C1: [getMeasValues] and [getMeasValuesActuals] have one entry per
    measurement; the entry of a measurement that is not of a phasor type
    is its stored value; for the n-th magnitude and the n-th phase
    measurement of a family, the magnitude slot holds [mag * cos phase]
    and the phase slot [mag * sin phase].  In the scenario (ideal 1.02
    and -0.05 on one node, field mode) the vector is
    [1.02 * cos (-0.05); 1.02 * sin (-0.05)]. *)
Theorem getMeasValues_rectangular :
  forall ms : MeasurementSet,
    length (getMeasValues ms) = length ms
    /\ length (getMeasValuesActuals ms) = length ms
    /\ (forall j m, ms !! j = Some m -> meas_type m ∉ pmu_types ->
          getMeasValues ms !! j = Some (meas_value m)
          /\ getMeasValuesActuals ms !! j = Some (meas_value_act m))
    /\ (forall mag_type phase_type n mag phase,
          (mag_type, phase_type) ∈ pmu_families ->
          getMeasurementsOfType ms mag_type !! n = Some mag ->
          getMeasurementsOfType ms phase_type !! n = Some phase ->
          exists a b,
            ms !! a = Some mag /\ ms !! b = Some phase
            /\ getMeasValues ms !! a
               = Some (meas_value mag * cos (meas_value phase))
            /\ getMeasValues ms !! b
               = Some (meas_value mag * sin (meas_value phase))
            /\ getMeasValuesActuals ms !! a
               = Some (meas_value_act mag * cos (meas_value_act phase))
            /\ getMeasValuesActuals ms !! b
               = Some (meas_value_act mag * sin (meas_value_act phase)))
    /\ (forall (g : RandomState) (dist : string) (seed : option N)
               (node : Element),
          getMeasValues
            (meas_creation g
               [Measurement_init node Node Vpmu_mag (102/100) 1;
                Measurement_init node Node Vpmu_phase (-5/100) 1]
               dist seed "field")
          = [102/100 * cos (-5/100); 102/100 * sin (-5/100)]).
Proof.
  intros ms. unfold getMeasValues, getMeasValuesActuals.
  split; [apply meas_vector_length|].
  split; [apply meas_vector_length|].
  split; [|split].
  - intros j m Hj Ht. split; by apply meas_vector_other_type.
  - intros mt pt n mag phase Hf Hmag Hph.
    apply getMeasurementsOfType_index in Hmag as (a & Ha & Hma).
    apply getMeasurementsOfType_index in Hph as (b & Hb & Hmb).
    exists a, b.
    destruct (meas_vector_pair ms meas_value _ _ _ _ _ Hf Ha Hb)
      as (m1 & p1 & ? & ? & ? & ?).
    destruct (meas_vector_pair ms meas_value_act _ _ _ _ _ Hf Ha Hb)
      as (m2 & p2 & ? & ? & ? & ?).
    repeat split; congruence.
  - intros g dist seed node.
    set (set2 := meas_creation _ _ _ _ _).
    assert (Hset : set2 = map to_actuals
              [field_reading (Measurement_init node Node Vpmu_mag (102/100) 1);
               field_reading (Measurement_init node Node Vpmu_phase (-5/100) 1)])
      by reflexivity.
    clearbody set2. subst set2.
    assert (Ha : getIndexOfMeasurements
              (map to_actuals
                 [field_reading (Measurement_init node Node Vpmu_mag (102/100) 1);
                  field_reading
                    (Measurement_init node Node Vpmu_phase (-5/100) 1)])
              Vpmu_mag !! 0%nat = Some 0%nat)
      by (rewrite getIndexOfMeasurements_indices; reflexivity).
    assert (Hb : getIndexOfMeasurements
              (map to_actuals
                 [field_reading (Measurement_init node Node Vpmu_mag (102/100) 1);
                  field_reading
                    (Measurement_init node Node Vpmu_phase (-5/100) 1)])
              Vpmu_phase !! 0%nat = Some 1%nat)
      by (rewrite getIndexOfMeasurements_indices; reflexivity).
    assert (Hf : (Vpmu_mag, Vpmu_phase) ∈ pmu_families) by left.
    destruct (meas_vector_pair _ meas_value _ _ _ _ _ Hf Ha Hb)
      as (m1 & p1 & [= <-] & [= <-] & H0 & H1).
    pose proof (meas_vector_length
      (map to_actuals
         [field_reading (Measurement_init node Node Vpmu_mag (102/100) 1);
          field_reading (Measurement_init node Node Vpmu_phase (-5/100) 1)])
      meas_value) as Hlen.
    destruct (meas_vector _ _) as [|x [|y [|z l]]]; try discriminate Hlen.
    simpl in H0, H1. by injection H0 as ->; injection H1 as ->.
Qed.

(** C10: within a family the n-th entry of the magnitude index array is
    paired with the n-th entry of the phase index array, whatever
    elements the two measurements belong to; where both exist the two
    slots hold the rectangular form, and a magnitude or phase
    measurement whose position has no counterpart keeps its stored
    value, in [getMeasValues] and in [getMeasValuesActuals]. *)
Theorem pmu_pairs_by_position (ms : MeasurementSet)
    (mag_type phase_type : MeasType) :
  (mag_type, phase_type) ∈ pmu_families ->
  (forall n a b,
      getIndexOfMeasurements ms mag_type !! n = Some a ->
      getIndexOfMeasurements ms phase_type !! n = Some b ->
      rectangular_at ms meas_value (getMeasValues ms) a b
      /\ rectangular_at ms meas_value_act (getMeasValuesActuals ms) a b)
  /\ (forall n a,
      getIndexOfMeasurements ms mag_type !! n = Some a ->
      getIndexOfMeasurements ms phase_type !! n = None ->
      getMeasValues ms !! a = meas_value <$> ms !! a
      /\ getMeasValuesActuals ms !! a = meas_value_act <$> ms !! a)
  /\ (forall n b,
      getIndexOfMeasurements ms phase_type !! n = Some b ->
      getIndexOfMeasurements ms mag_type !! n = None ->
      getMeasValues ms !! b = meas_value <$> ms !! b
      /\ getMeasValuesActuals ms !! b = meas_value_act <$> ms !! b).
Proof.
  intros Hf. unfold getMeasValues, getMeasValuesActuals.
  split; [|split].
  - intros n a b Ha Hb. split; by apply (meas_vector_pair _ _ mag_type phase_type n).
  - intros n a Ha Hb. split; by apply (meas_vector_unpaired_mag _ _ mag_type phase_type n).
  - intros n b Hb Ha. split; by apply (meas_vector_unpaired_phase _ _ mag_type phase_type n).
Qed.

(** Two magnitudes (on N1 and N2) and one phase (on N2): the phase of N2
    is paired with the magnitude of N1, and the magnitude of N2 is left
    as stored. *)
Lemma pmu_pairs_by_position_witness :
  (rectangular_at
     [mkMeasurement node_N1 Node Vpmu_mag 2 1 0 0 2 2;
      mkMeasurement node_N2 Node Vpmu_mag 5 1 0 0 5 5;
      mkMeasurement node_N2 Node Vpmu_phase 1 1 0 0 1 1]
     meas_value
     (getMeasValues
        [mkMeasurement node_N1 Node Vpmu_mag 2 1 0 0 2 2;
         mkMeasurement node_N2 Node Vpmu_mag 5 1 0 0 5 5;
         mkMeasurement node_N2 Node Vpmu_phase 1 1 0 0 1 1])
     0 2)
  /\ getMeasValues
       [mkMeasurement node_N1 Node Vpmu_mag 2 1 0 0 2 2;
        mkMeasurement node_N2 Node Vpmu_mag 5 1 0 0 5 5;
        mkMeasurement node_N2 Node Vpmu_phase 1 1 0 0 1 1] !! 1%nat
     = Some 5.
Proof.
  destruct (pmu_pairs_by_position
              [mkMeasurement node_N1 Node Vpmu_mag 2 1 0 0 2 2;
               mkMeasurement node_N2 Node Vpmu_mag 5 1 0 0 5 5;
               mkMeasurement node_N2 Node Vpmu_phase 1 1 0 0 1 1]
              Vpmu_mag Vpmu_phase) as (Hpair & Hmag & _).
  - left.
  - split.
    + apply (Hpair 0%nat 0%nat 2%nat); reflexivity.
    + apply (Hmag 1%nat 1%nat); reflexivity.
Defined.

(** * Further properties *)

(** ** update_measurement: what it writes and when it raises *)

Lemma unit_base_write_values meas x y :
  unit_base (write_values meas x y) = unit_base meas.
Proof. reflexivity. Qed.

Lemma update_body_frame element_uuid mt meas_data value_in_pu meas meas' :
  update_body element_uuid mt meas_data value_in_pu meas = Some meas' ->
  same_but_values meas meas'.
Proof.
  unfold update_body, py_div. intros H.
  repeat case_match; simplify_eq; done.
Qed.

Lemma update_body_unmatched element_uuid mt meas_data value_in_pu meas :
  matches element_uuid mt meas = false ->
  update_body element_uuid mt meas_data value_in_pu meas = Some meas.
Proof. apply update_body_no_match. Qed.

(** What the body does to a measurement it matches, by direction. *)
Lemma update_body_matched_pu element_uuid mt meas_data meas :
  matches element_uuid mt meas = true ->
  update_body element_uuid mt meas_data true meas
  = Some (write_values meas meas_data (meas_data * unit_base meas)).
Proof.
  unfold matches, update_body, unit_base. intros H.
  destruct (bool_decide (uuid (element meas) = element_uuid)); [|done].
  destruct mt; simpl in H; try discriminate H;
    destruct (meas_type meas); simpl in H; try discriminate H; simpl;
    try reflexivity; by rewrite Rmult_1_r.
Qed.

Lemma unit_base_nonzero meas :
  nonzero_bases (element meas) -> unit_base meas <> 0.
Proof.
  intros (Hv & Hc & Hp). pose proof sqrt3_pos.
  unfold unit_base, volt_base, curr_base, power_base.
  repeat case_match; try lra; try done.
  intros Hz. apply Hv. apply (Rmult_eq_reg_r (/ sqrt 3)).
  - rewrite Rmult_0_l. exact Hz.
  - apply Rinv_neq_0_compat. lra.
Qed.

Lemma update_body_matched_actual element_uuid mt meas_data meas :
  matches element_uuid mt meas = true ->
  nonzero_bases (element meas) ->
  update_body element_uuid mt meas_data false meas
  = Some (write_values meas (meas_data / unit_base meas) meas_data).
Proof.
  intros H Hnz. pose proof (unit_base_nonzero meas Hnz) as Hb.
  destruct Hnz as (Hv & Hc & Hp).
  assert (Hpb : power_base (element meas) <> 0) by (unfold power_base; lra).
  unfold matches in H. unfold update_body, py_div.
  unfold unit_base in *.
  destruct (bool_decide (uuid (element meas) = element_uuid)); [|done].
  destruct mt; simpl in H; try discriminate H;
    destruct (meas_type meas); simpl in H; try discriminate H; simpl in *;
    try reflexivity;
    try (destruct (Req_dec_T _ 0); [done|reflexivity]);
    replace (meas_data / 1) with meas_data by lra; reflexivity.
Qed.

Lemma update_body_total element_uuid mt meas_data value_in_pu meas :
  value_in_pu = true \/ nonzero_bases (element meas) ->
  exists meas',
    update_body element_uuid mt meas_data value_in_pu meas = Some meas'.
Proof.
  intros H. destruct (matches element_uuid mt meas) eqn:Hm.
  - destruct value_in_pu.
    + rewrite update_body_matched_pu by done. eauto.
    + destruct H as [|H]; [done|].
      rewrite update_body_matched_actual by done. eauto.
  - rewrite update_body_unmatched by done. eauto.
Qed.

(** X1: a live update changes nothing but [meas_value] and
    [meas_value_act]: the set keeps its length and every measurement its
    element, types, ideal value, uncertainty and both standard
    deviations, also when the update ends in an exception. *)
Theorem update_measurement_frame :
  forall (ms : MeasurementSet) element_uuid mt meas_data value_in_pu,
    Forall2 same_but_values ms
      (fst (update_measurement ms element_uuid mt meas_data value_in_pu)).
Proof.
  intros ms element_uuid mt meas_data value_in_pu.
  assert (Hrefl : forall l : list Measurement, Forall2 same_but_values l l).
  { intros l. apply Forall_Forall2_diag, Forall_forall. by intros. }
  induction ms as [|meas rest IH]; simpl; [constructor|].
  destruct (update_body _ _ _ _ meas) as [meas'|] eqn:Hb; simpl.
  - destruct (update_measurement rest _ _ _ _) as [rest' o]. simpl in *.
    constructor; [|done]. by eapply update_body_frame.
  - apply Hrefl.
Qed.

Lemma update_measurement_lookup (ms : MeasurementSet) element_uuid mt
    meas_data value_in_pu :
  Forall (fun meas => exists meas',
            update_body element_uuid mt meas_data value_in_pu meas
            = Some meas') ms ->
  snd (update_measurement ms element_uuid mt meas_data value_in_pu) = Returned
  /\ forall i, fst (update_measurement ms element_uuid mt meas_data
                      value_in_pu) !! i
       = ms !! i ≫= update_body element_uuid mt meas_data value_in_pu.
Proof.
  induction ms as [|meas rest IH]; intros H; simpl.
  - split; [done|]. by intros [|i].
  - apply Forall_cons in H as [[meas' Hb] H]. rewrite Hb.
    destruct (IH H) as [Ho Hl].
    destruct (update_measurement rest _ _ _ _) as [rest' o]. simpl in *.
    split; [done|]. intros [|i]; simpl; [by rewrite Hb|]. apply Hl.
Qed.

(** X2: a live update returns normally when the value is per unit, or
    when every element of the set has nonzero bases. *)
Theorem update_measurement_returns (ms : MeasurementSet) element_uuid mt
    meas_data value_in_pu :
  value_in_pu = true \/ Forall (fun meas => nonzero_bases (element meas)) ms ->
  snd (update_measurement ms element_uuid mt meas_data value_in_pu) = Returned.
Proof.
  intros H. apply update_measurement_lookup.
  apply Forall_forall. intros meas Hin. apply update_body_total.
  destruct H as [H|H]; [by left|right].
  by apply (proj1 (Forall_forall _ _) H).
Qed.

Lemma update_measurement_returns_witness :
  snd (update_measurement
         [Measurement_init branch_dead Branch I_mag 1 1]
         "L0" Ipmu_mag 3 true) = Returned.
Proof.
  apply update_measurement_returns. left. reflexivity.
Defined.

Lemma update_measurement_pointwise (ms : MeasurementSet) element_uuid mt
    meas_data value_in_pu i meas :
  value_in_pu = true \/ Forall (fun meas => nonzero_bases (element meas)) ms ->
  ms !! i = Some meas ->
  exists meas',
    fst (update_measurement ms element_uuid mt meas_data value_in_pu) !! i
    = Some meas'
    /\ update_body element_uuid mt meas_data value_in_pu meas = Some meas'.
Proof.
  intros H Hi.
  assert (Hall : Forall (fun meas => exists meas',
            update_body element_uuid mt meas_data value_in_pu meas
            = Some meas') ms).
  { apply Forall_forall. intros m Hin. apply update_body_total.
    destruct H as [H|H]; [by left|right].
    by apply (proj1 (Forall_forall _ _) H). }
  destruct (update_measurement_lookup _ _ _ _ _ Hall) as [_ Hl].
  rewrite Hl, Hi. simpl.
  destruct (proj1 (Forall_forall _ _) Hall meas) as [meas' Hb];
    [by eapply list_elem_of_lookup_2|].
  exists meas'. by rewrite Hb.
Qed.

(** X3: when the update returns (value per unit, or nonzero bases), a
    measurement that the update matches holds the incoming value in the
    field of the incoming unit and the converted value in the other
    field: the reading times the base of its family when the reading is
    per unit, the reading divided by that base when it is in actual
    units.  A measurement that it does not match is left as it was. *)
Theorem update_measurement_matched (ms : MeasurementSet) element_uuid mt
    meas_data value_in_pu i meas :
  value_in_pu = true \/ Forall (fun meas => nonzero_bases (element meas)) ms ->
  ms !! i = Some meas ->
  exists meas',
    fst (update_measurement ms element_uuid mt meas_data value_in_pu) !! i
    = Some meas'
    /\ if matches element_uuid mt meas
       then if value_in_pu
            then meas_value meas' = meas_data
                 /\ meas_value_act meas' = meas_data * unit_base meas
            else meas_value meas' = meas_data / unit_base meas
                 /\ meas_value_act meas' = meas_data
       else meas' = meas.
Proof.
  intros H Hi.
  destruct (update_measurement_pointwise _ element_uuid mt meas_data
              value_in_pu _ _ H Hi) as (meas' & Hl & Hb).
  exists meas'. split; [done|].
  assert (H' : value_in_pu = true \/ nonzero_bases (element meas)).
  { destruct H as [H|H]; [by left|right].
    apply (proj1 (Forall_forall _ _) H). by eapply list_elem_of_lookup_2. }
  destruct (matches element_uuid mt meas) eqn:Hm.
  - destruct value_in_pu.
    + rewrite update_body_matched_pu in Hb by done. by injection Hb as <-.
    + destruct H' as [|H']; [done|].
      rewrite update_body_matched_actual in Hb by done.
      by injection Hb as <-.
  - rewrite update_body_unmatched in Hb by done. by injection Hb.
Qed.

Lemma update_measurement_matched_witness :
  exists meas',
    fst (update_measurement
           [Measurement_init node_N1 Node V_mag 1 1;
            Measurement_init branch_L1 Branch I_mag 1 1]
           "L1" Ipmu_mag 40 false) !! 1%nat = Some meas'
    /\ if matches "L1" Ipmu_mag (Measurement_init branch_L1 Branch I_mag 1 1)
       then if false
            then meas_value meas' = 40
                 /\ meas_value_act meas'
                    = 40 * unit_base (Measurement_init branch_L1 Branch I_mag 1 1)
            else meas_value meas'
                 = 40 / unit_base (Measurement_init branch_L1 Branch I_mag 1 1)
                 /\ meas_value_act meas' = 40
       else meas' = Measurement_init branch_L1 Branch I_mag 1 1.
Proof.
  apply (update_measurement_matched
           [Measurement_init node_N1 Node V_mag 1 1;
            Measurement_init branch_L1 Branch I_mag 1 1]
           "L1" Ipmu_mag 40 false
           1%nat (Measurement_init branch_L1 Branch I_mag 1 1)).
  - right. repeat constructor; simpl; lra.
  - reflexivity.
Defined.

Lemma update_measurement_length (ms : MeasurementSet) element_uuid mt
    meas_data value_in_pu :
  length (fst (update_measurement ms element_uuid mt meas_data value_in_pu))
  = length ms.
Proof.
  induction ms as [|meas rest IH]; simpl; [done|].
  destruct (update_body _ _ _ _ meas); [|done].
  destruct (update_measurement rest _ _ _ _) as [rest' o]. simpl in *.
  by rewrite IH.
Qed.

(** X4: a per-unit live update keeps the agreement of units: if in
    every measurement the actual value is the per-unit value times the
    base of its family, as [meas_creation] leaves it, the same holds
    after the update. *)
Theorem update_measurement_keeps_units (ms : MeasurementSet) element_uuid mt
    meas_data :
  Forall value_units_agree ms ->
  Forall value_units_agree
    (fst (update_measurement ms element_uuid mt meas_data true)).
Proof.
  intros Hu. apply Forall_lookup. intros i meas' Hi.
  destruct (ms !! i) as [meas|] eqn:Hm.
  - destruct (update_measurement_pointwise _ element_uuid mt meas_data
                true _ _ (or_introl eq_refl) Hm) as (m2 & Hl & Hb).
    assert (m2 = meas') as -> by congruence.
    destruct (matches element_uuid mt meas) eqn:Hmatch.
    + rewrite update_body_matched_pu in Hb by done.
      injection Hb as <-. done.
    + rewrite update_body_unmatched in Hb by done. injection Hb as <-.
      apply (proj1 (Forall_forall _ _) Hu). by eapply list_elem_of_lookup_2.
  - apply lookup_ge_None in Hm. apply lookup_lt_Some in Hi.
    pose proof (update_measurement_length ms element_uuid mt meas_data true).
    lia.
Qed.

Lemma update_measurement_keeps_units_witness :
  Forall value_units_agree
    (fst (update_measurement
            [Measurement_init node_N1 Node V_mag 1 1;
             Measurement_init branch_L1 Branch I_mag 1 1]
            "L1" Ipmu_mag 40 true)).
Proof.
  apply update_measurement_keeps_units.
  repeat constructor; unfold value_units_agree; simpl; lra.
Defined.

Lemma update_body_raise_inv element_uuid mt meas_data value_in_pu meas :
  update_body element_uuid mt meas_data value_in_pu meas = None ->
  value_in_pu = false
  /\ matches element_uuid mt meas = true
  /\ ((mt = Ipmu_mag /\ base_current (element meas) = 0)
      \/ (mt ∈ [S1_real; S1_imag; Sinj_imag]
          /\ base_apparent_power (element meas) = 0)).
Proof.
  destruct (matches element_uuid mt meas) eqn:Hm.
  2:{ by rewrite update_body_unmatched. }
  destruct value_in_pu.
  { by rewrite update_body_matched_pu. }
  intros Hb. split; [done|]. split; [done|].
  unfold matches in Hm. unfold update_body, py_div, curr_base, power_base in Hb.
  destruct (bool_decide (uuid (element meas) = element_uuid)); [|done].
  destruct mt; simpl in Hm; try discriminate Hm;
    destruct (meas_type meas); simpl in Hm; try discriminate Hm;
    simpl in Hb; try discriminate Hb;
    match type of Hb with
    | context [Req_dec_T ?x 0] =>
        destruct (Req_dec_T x 0) as [Hz|]; [|discriminate Hb]
    end.
  all: first
    [ left; split; [reflexivity|exact Hz]
    | right; split; [rewrite !elem_of_cons; tauto|lra] ].
Qed.

(** X5: if a live update ends in [ZeroDivisionError], the reading was
    in actual units and the set holds a measurement that the update
    matches and whose divisor is zero: [base_current] for an incoming
    [Ipmu_mag], [base_apparent_power] for an incoming [S1_real],
    [S1_imag] or [Sinj_imag]; that measurement and all later ones are
    left as they were. *)
Theorem update_measurement_raise (ms : MeasurementSet) element_uuid mt
    meas_data value_in_pu :
  snd (update_measurement ms element_uuid mt meas_data value_in_pu)
  = ZeroDivisionError ->
  value_in_pu = false
  /\ exists i meas,
       ms !! i = Some meas
       /\ matches element_uuid mt meas = true
       /\ ((mt = Ipmu_mag /\ base_current (element meas) = 0)
           \/ (mt ∈ [S1_real; S1_imag; Sinj_imag]
               /\ base_apparent_power (element meas) = 0))
       /\ drop i (fst (update_measurement ms element_uuid mt meas_data
                         value_in_pu))
          = drop i ms.
Proof.
  induction ms as [|m0 rest IH]; simpl; [done|].
  destruct (update_body _ _ _ _ m0) as [m0'|] eqn:Hb.
  - destruct (update_measurement rest _ _ _ _) as [rest' o]. simpl in *.
    intros Ho. destruct (IH Ho) as (Hpu & i & meas & Hi & Hm & Hz & Hd).
    split; [done|]. exists (S i), meas. done.
  - intros _. apply update_body_raise_inv in Hb as (Hpu & Hm & Hz).
    split; [done|]. exists 0%nat, m0. done.
Qed.

Lemma update_measurement_raise_witness :
  false = false
  /\ exists i meas,
       [Measurement_init node_N1 Node V_mag 1 1;
        Measurement_init branch_dead Branch I_mag 1 1] !! i = Some meas
       /\ matches "L0" Ipmu_mag meas = true
       /\ ((Ipmu_mag = Ipmu_mag /\ base_current (element meas) = 0)
           \/ (Ipmu_mag ∈ [S1_real; S1_imag; Sinj_imag]
               /\ base_apparent_power (element meas) = 0))
       /\ drop i (fst (update_measurement
                         [Measurement_init node_N1 Node V_mag 1 1;
                          Measurement_init branch_dead Branch I_mag 1 1]
                         "L0" Ipmu_mag 40 false))
          = drop i [Measurement_init node_N1 Node V_mag 1 1;
                    Measurement_init branch_dead Branch I_mag 1 1].
Proof.
  apply (update_measurement_raise
           [Measurement_init node_N1 Node V_mag 1 1;
            Measurement_init branch_dead Branch I_mag 1 1]
           "L0" Ipmu_mag 40 false).
  simpl. unfold update_body, py_div. simpl.
  destruct (Req_dec_T 0 0) as [|Hn]; [reflexivity|].
  exfalso. apply Hn. reflexivity.
Defined.

Lemma update_body_idempotent element_uuid mt meas_data value_in_pu meas meas' :
  update_body element_uuid mt meas_data value_in_pu meas = Some meas' ->
  update_body element_uuid mt meas_data value_in_pu meas' = Some meas'.
Proof.
  intros H. unfold update_body, py_div in H.
  repeat case_match; simplify_eq;
    unfold update_body, py_div; simpl;
    repeat match goal with
    | E : ?c = _ |- context [?c] => rewrite E
    end;
    reflexivity.
Qed.

(** X6: repeating a live update with the same arguments changes nothing
    more: the second call returns the set and the outcome of the
    first. *)
Theorem update_measurement_idempotent :
  forall (ms : MeasurementSet) element_uuid mt meas_data value_in_pu,
    update_measurement
      (fst (update_measurement ms element_uuid mt meas_data value_in_pu))
      element_uuid mt meas_data value_in_pu
    = update_measurement ms element_uuid mt meas_data value_in_pu.
Proof.
  intros ms element_uuid mt meas_data value_in_pu.
  induction ms as [|meas rest IH]; simpl; [done|].
  destruct (update_body _ _ _ _ meas) as [meas'|] eqn:Hb; simpl.
  - destruct (update_measurement rest _ _ _ _) as [rest' o] eqn:Hr.
    simpl in *. rewrite (update_body_idempotent _ _ _ _ _ _ Hb).
    by rewrite IH.
  - by rewrite Hb.
Qed.

(** X7: an incoming reading labelled [V_mag], [I_mag] or [Ipmu_inj_mag]
    updates nothing, not even a stored measurement of that type on that
    element: magnitudes are only reached through [Vpmu_mag] and
    [Ipmu_mag]. *)
Theorem update_measurement_plain_magnitude_ignored :
  forall (ms : MeasurementSet) element_uuid mt meas_data value_in_pu,
    mt ∈ [V_mag; I_mag; Ipmu_inj_mag] ->
    update_measurement ms element_uuid mt meas_data value_in_pu
    = (ms, Returned).
Proof.
  intros ms element_uuid mt meas_data value_in_pu Hin.
  apply update_measurement_skips. intros meas _.
  unfold matches.
  destruct (bool_decide (uuid (element meas) = element_uuid)); [|done].
  rewrite !elem_of_cons in Hin.
  destruct Hin as [-> | [-> | [-> | Hin]]];
    [| | |by apply elem_of_nil in Hin];
    simpl; by rewrite !andb_false_r.
Qed.

Lemma update_measurement_plain_magnitude_ignored_witness :
  update_measurement [Measurement_init node_N1 Node V_mag 1 1]
    "N1" V_mag 3 true
  = ([Measurement_init node_N1 Node V_mag 1 1], Returned).
Proof.
  apply update_measurement_plain_magnitude_ignored. left.
Defined.

(** ** meas_creation: frame, units, modes *)

Lemma to_actuals_units meas :
  value_units_agree (to_actuals meas)
  /\ std_dev_units_agree (to_actuals meas).
Proof.
  unfold value_units_agree, std_dev_units_agree, to_actuals, unit_base.
  destruct (meas_type meas) eqn:Et; simpl; rewrite ?Et; simpl;
    split; lra.
Qed.





Lemma simulate_normal_identity err_pu index meas :
  same_identity meas (simulate_normal err_pu index meas).
Proof.
  unfold simulate_normal, same_identity. repeat case_match; done.
Qed.

Lemma simulate_uniform_identity err_pu index meas :
  same_identity meas (simulate_uniform err_pu index meas).
Proof.
  unfold simulate_uniform, same_identity. repeat case_match; done.
Qed.

Lemma field_reading_identity meas :
  same_identity meas (field_reading meas).
Proof.
  unfold field_reading, same_identity. repeat case_match; done.
Qed.

Lemma to_actuals_identity meas : same_identity meas (to_actuals meas).
Proof.
  unfold to_actuals, same_identity. repeat case_match; done.
Qed.

Lemma same_identity_trans m1 m2 m3 :
  same_identity m1 m2 -> same_identity m2 m3 -> same_identity m1 m3.
Proof.
  unfold same_identity. intros (-> & -> & -> & -> & ->) ?. done.
Qed.

(** The measurement that [meas_creation] leaves at position [i]. *)
Lemma meas_creation_lookup g (ms : MeasurementSet) dist seed type i :
  meas_creation g ms dist seed type !! i
  = (fun meas =>
       to_actuals
         (if bool_decide (type = "simulation") then
            if bool_decide (dist = "normal") then
              simulate_normal (random_normal g seed 0 0 (length ms)) i meas
            else if bool_decide (dist = "uniform") then
              simulate_uniform (random_uniform g seed (-1) 1 (length ms))
                i meas
            else meas
          else if bool_decide (type = "field") then field_reading meas
          else meas)) <$> ms !! i.
Proof.
  unfold meas_creation.
  repeat case_match;
    rewrite list_lookup_fmap, ?list_lookup_imap, ?list_lookup_fmap;
    by destruct (ms !! i).
Qed.

Lemma meas_creation_length g (ms : MeasurementSet) dist seed type :
  length (meas_creation g ms dist seed type) = length ms.
Proof.
  unfold meas_creation.
  repeat case_match; by rewrite length_map, ?length_imap, ?length_map.
Qed.

(** X8: in every mode [meas_creation] keeps the number of measurements
    and, for each one, its element, element type, measurement type,
    ideal value and uncertainty. *)
Theorem meas_creation_frame :
  forall g (ms : MeasurementSet) dist seed type,
    Forall2 same_identity ms (meas_creation g ms dist seed type).
Proof.
  intros g ms dist seed type.
  apply Forall2_same_length_lookup_2.
  { by rewrite meas_creation_length. }
  intros i m m' Hm Hm'. rewrite meas_creation_lookup, Hm in Hm'.
  injection Hm' as <-.
  eapply same_identity_trans; [|apply to_actuals_identity].
  repeat case_match;
    auto using simulate_normal_identity, simulate_uniform_identity,
      field_reading_identity;
    done.
Qed.

(** X9: after [meas_creation], in every mode, the actual value of each
    measurement is its per-unit value times the base of its family, and
    the actual standard deviation is the per-unit standard deviation
    times the same base. *)
Theorem meas_creation_units :
  forall g (ms : MeasurementSet) dist seed type,
    Forall (fun meas => value_units_agree meas /\ std_dev_units_agree meas)
      (meas_creation g ms dist seed type).
Proof.
  intros g ms dist seed type. apply Forall_lookup. intros i m' Hm'.
  rewrite meas_creation_lookup in Hm'.
  destruct (ms !! i) as [m|]; [|done]. injection Hm' as <-.
  apply to_actuals_units.
Qed.

Lemma noise_std_dev meas :
  (forall err_pu index,
      std_dev (simulate_normal err_pu index meas)
      = if type_in (meas_type meas) type_phase
        then unc meas / 3
        else Rabs (meas_value (simulate_normal err_pu index meas) * unc meas)
             / 300)
  /\ (forall err_pu index,
      std_dev (simulate_uniform err_pu index meas)
      = if type_in (meas_type meas) type_phase
        then unc meas / 3
        else Rabs (meas_value (simulate_uniform err_pu index meas) * unc meas)
             / 300)
  /\ std_dev (field_reading meas)
     = if type_in (meas_type meas) type_phase
       then unc meas / 3
       else Rabs (meas_value (field_reading meas) * unc meas) / 300.
Proof.
  unfold simulate_normal, simulate_uniform, field_reading.
  destruct meas as [e et t ideal u s sa v va].
  destruct t; simpl; repeat split; intros; reflexivity.
Qed.

(** X10: in field mode and in simulation mode with the normal or the
    uniform distribution, the stored standard deviation of a phase
    measurement is [unc / 3], and that of any other measurement is
    [|meas_value * unc| / 300], computed from the value that was just
    stored. *)
Theorem meas_creation_std_dev g (ms : MeasurementSet) dist seed type :
  type = "field"
  \/ (type = "simulation" /\ (dist = "normal" \/ dist = "uniform")) ->
  Forall (fun meas =>
            std_dev meas
            = if type_in (meas_type meas) type_phase
              then unc meas / 3
              else Rabs (meas_value meas * unc meas) / 300)
    (meas_creation g ms dist seed type).
Proof.
  intros Hmode. apply Forall_lookup. intros i m' Hm'.
  rewrite meas_creation_lookup in Hm'.
  destruct (ms !! i) as [m|]; [|done]. injection Hm' as <-.
  destruct (noise_std_dev m) as (Hn & Hu & Hf).
  match goal with
  | |- context [to_actuals ?x] =>
      destruct (to_actuals_keeps x) as (-> & -> & _ & -> & -> & _)
  end.
  destruct Hmode as [-> | [-> [-> | ->]]]; simpl.
  - rewrite Hf. destruct (field_reading_identity m) as (_ & _ & -> & _ & ->).
    done.
  - rewrite Hn.
    destruct (simulate_normal_identity
                (random_normal g seed 0 0 (length ms)) i m)
      as (_ & _ & -> & _ & ->).
    done.
  - rewrite Hu.
    destruct (simulate_uniform_identity
                (random_uniform g seed (-1) 1 (length ms)) i m)
      as (_ & _ & -> & _ & ->).
    done.
Qed.

Lemma meas_creation_std_dev_witness :
  Forall (fun meas =>
            std_dev meas
            = if type_in (meas_type meas) type_phase
              then unc meas / 3
              else Rabs (meas_value meas * unc meas) / 300)
    (meas_creation halves
       [Measurement_init node_N1 Node V_mag 1 1;
        Measurement_init node_N1 Node Vpmu_phase (1/4) 1]
       "uniform" None "simulation").
Proof.
  apply meas_creation_std_dev. right. split; [reflexivity|].
  right. reflexivity.
Defined.

Lemma field_twice meas :
  to_actuals (field_reading (to_actuals (field_reading meas)))
  = to_actuals (field_reading meas).
Proof.
  destruct meas as [e et t ideal u s sa v va].
  destruct t; reflexivity.
Qed.

(** X11: field mode stores the ideal value as the measured value,
    whatever the generator, distribution and seed, and running it again
    changes nothing. *)
Theorem meas_creation_field :
  forall g g' (ms : MeasurementSet) dist dist' seed seed',
    map meas_value (meas_creation g ms dist seed "field")
    = map meas_value_ideal ms
    /\ meas_creation g' (meas_creation g ms dist seed "field")
         dist' seed' "field"
       = meas_creation g ms dist seed "field".
Proof.
  intros g g' ms dist dist' seed seed'. split.
  - apply list_eq. intros i.
    rewrite !list_lookup_fmap, meas_creation_lookup.
    destruct (ms !! i) as [m|]; [|done]. simpl. f_equal.
    destruct (to_actuals_keeps (field_reading m)) as (-> & _).
    unfold field_reading. by repeat case_match.
  - apply list_eq. intros i.
    rewrite !meas_creation_lookup.
    destruct (ms !! i) as [m|]; [|done]. simpl. f_equal.
    apply field_twice.
Qed.

Lemma at_index_uniform_bound g seed size index :
  (forall s i, 0 <= random_sample g s i < 1) ->
  Rabs (at_index (random_uniform g seed (-1) 1 size) index) <= 1.
Proof.
  intros Hg. unfold at_index, random_uniform. rewrite list_lookup_fmap.
  destruct (seq 0 size !! index) as [k|]; simpl.
  - pose proof (Hg seed k). apply Rabs_le. lra.
  - rewrite Rabs_R0. lra.
Qed.

Lemma Rabs_scaled_le a e : Rabs e <= 1 -> Rabs (a * e) <= Rabs a.
Proof.
  intros He. rewrite Rabs_mult. pose proof (Rabs_pos a). nra.
Qed.

(** X12: with uniform draws in [0, 1), the measured value of the
    uniform simulation stays within the uncertainty band of the ideal
    value: within [|ideal * unc| / 100] for a measurement that is not a
    phase, and within [|unc|] for a phase. *)
Theorem meas_creation_uniform_band g (ms : MeasurementSet) seed i meas :
  (forall s k, 0 <= random_sample g s k < 1) ->
  ms !! i = Some meas ->
  exists meas',
    meas_creation g ms "uniform" seed "simulation" !! i = Some meas'
    /\ Rabs (meas_value meas' - meas_value_ideal meas)
       <= if type_in (meas_type meas) type_phase
          then Rabs (unc meas)
          else Rabs (meas_value_ideal meas * unc meas) / 100.
Proof.
  intros Hg Hi. rewrite meas_creation_lookup, Hi. simpl.
  eexists. split; [reflexivity|].
  match goal with
  | |- context [to_actuals ?x] =>
      destruct (to_actuals_keeps x) as (-> & _)
  end.
  pose proof (at_index_uniform_bound g seed (length ms) i Hg) as He.
  unfold simulate_uniform.
  generalize dependent (at_index (random_uniform g seed (-1) 1 (length ms)) i).
  intros e He.
  destruct (meas_type meas); simpl.
  all: try (replace (meas_value_ideal meas
                     + 3 * (Rabs (meas_value_ideal meas * unc meas) / 300) * e
                     - meas_value_ideal meas)
              with (Rabs (meas_value_ideal meas * unc meas) / 100 * e)
              by lra;
            etrans; [apply Rabs_scaled_le, He|];
            rewrite Rabs_pos_eq;
            [lra|pose proof (Rabs_pos (meas_value_ideal meas * unc meas)); lra]).
  all: replace (meas_value_ideal meas + 3 * (unc meas / 3) * e
                - meas_value_ideal meas)
         with (unc meas * e) by lra;
       apply Rabs_scaled_le, He.
Qed.

Lemma meas_creation_uniform_band_witness :
  exists meas',
    meas_creation halves [Measurement_init node_N1 Node V_mag 1 1]
      "uniform" (Some 3%N) "simulation" !! 0%nat = Some meas'
    /\ Rabs (meas_value meas' - 1)
       <= if type_in V_mag type_phase
          then Rabs 1
          else Rabs (1 * 1) / 100.
Proof.
  apply (meas_creation_uniform_band halves
           [Measurement_init node_N1 Node V_mag 1 1] (Some 3%N) 0%nat
           (Measurement_init node_N1 Node V_mag 1 1)).
  - intros s k. simpl. lra.
  - reflexivity.
Defined.

(** X13: a mode that is neither "simulation" nor "field", or a
    simulation whose distribution is neither "normal" nor "uniform",
    raises nothing and stores no measured value and no standard
    deviation: only the conversion to actual units runs. *)
Theorem meas_creation_unknown_mode g (ms : MeasurementSet) dist seed type :
  (type <> "simulation" /\ type <> "field")
  \/ (type = "simulation" /\ dist <> "normal" /\ dist <> "uniform") ->
  meas_creation g ms dist seed type = map to_actuals ms
  /\ map meas_value (meas_creation g ms dist seed type) = map meas_value ms
  /\ map std_dev (meas_creation g ms dist seed type) = map std_dev ms.
Proof.
  intros H.
  assert (E : meas_creation g ms dist seed type = map to_actuals ms).
  { unfold meas_creation.
    destruct H as [[H1 H2] | (-> & H1 & H2)].
    - by rewrite !bool_decide_eq_false_2 by done.
    - rewrite bool_decide_eq_true_2 by done.
      by rewrite !bool_decide_eq_false_2 by done. }
  rewrite E. split; [done|].
  split; apply list_eq; intros i; rewrite !list_lookup_fmap;
    destruct (ms !! i) as [m|]; simpl; try done; f_equal;
    by destruct (to_actuals_keeps m) as (? & ? & _).
Qed.

Lemma meas_creation_unknown_mode_witness :
  meas_creation ones [mkMeasurement node_N1 Node V_mag 1 1 7 7 7 7]
    "normal" None "Field"
  = map to_actuals [mkMeasurement node_N1 Node V_mag 1 1 7 7 7 7]
  /\ map meas_value
       (meas_creation ones [mkMeasurement node_N1 Node V_mag 1 1 7 7 7 7]
          "normal" None "Field")
     = map meas_value [mkMeasurement node_N1 Node V_mag 1 1 7 7 7 7]
  /\ map std_dev
       (meas_creation ones [mkMeasurement node_N1 Node V_mag 1 1 7 7 7 7]
          "normal" None "Field")
     = map std_dev [mkMeasurement node_N1 Node V_mag 1 1 7 7 7 7].
Proof.
  apply meas_creation_unknown_mode. left. split; discriminate.
Defined.

(** ** Weights and covariances: bounds and order of the reads *)

Lemma cut_value : cut = / 10 ^ 6.
Proof. reflexivity. Qed.

Lemma cut_std_dev_ge meas : cut <= std_dev (cut_std_dev meas).
Proof.
  destruct (cut_std_dev_spec meas) as [-> _]. apply Rmax_r.
Qed.

Lemma cut_std_dev_act_ge meas : cut <= std_dev_act (cut_std_dev_act meas).
Proof.
  destruct (cut_std_dev_act_spec meas) as [-> _]. apply Rmax_r.
Qed.

Lemma square_bounds s :
  cut <= s ->
  (0 < powerRZ s (-2) <= 10 ^ 12) /\ / 10 ^ 12 <= powerRZ s 2.
Proof.
  intros Hs. pose proof cut_pos as Hc. rewrite cut_value in *.
  assert (H12 : / 10 ^ 12 = / 10 ^ 6 * / 10 ^ 6) by (simpl; field).
  assert (Hsq : / 10 ^ 12 <= s * s) by (rewrite H12; nra).
  assert (Hpos : 0 < s * s) by nra.
  assert (H12pos : (0 < 10 ^ 12)%R) by (simpl; lra).
  simpl powerRZ. rewrite Rmult_1_r.
  split; [split|exact Hsq].
  - by apply Rinv_0_lt_compat.
  - rewrite <- (Rinv_inv (10 ^ 12)).
    apply Rinv_le_contravar; [|exact Hsq].
    by apply Rinv_0_lt_compat.
Qed.

Lemma square_bounds_slack s :
  cut <= s ->
  (0 < powerRZ s (-2) <= 10 ^ 12 * (1 + / 10 ^ 9))
  /\ / 10 ^ 12 * (1 - / 10 ^ 9) <= powerRZ s 2.
Proof.
  intros Hs. destruct (square_bounds s Hs) as [[Hp Hw] Hc].
  assert (H12 : (0 < 10 ^ 12)%R) by (simpl; lra).
  assert (H9 : (0 < / 10 ^ 9 < 1)%R).
  { split; [apply Rinv_0_lt_compat; simpl; lra|].
    rewrite <- Rinv_1. apply Rinv_lt_contravar; simpl; lra. }
  assert (Hi12 : (0 < / 10 ^ 12)%R) by by apply Rinv_0_lt_compat.
  repeat split; [done|nra|nra].
Qed.

(** X14: up to one part in 10^9, every weight lies between 0 and 10^12
    and every covariance is at least 10^-12, in per-unit and in actual
    units, and each array has one entry per measurement. *)
Theorem weights_bounded :
  forall ms : MeasurementSet,
    (Forall (fun w => 0 < w <= 10 ^ 12 * (1 + / 10 ^ 9))
       (fst (getWeightsMatrix ms))
     /\ length (fst (getWeightsMatrix ms)) = length ms)
    /\ (Forall (fun w => 0 < w <= 10 ^ 12 * (1 + / 10 ^ 9))
          (fst (getWeightsMatrixActuals ms))
     /\ length (fst (getWeightsMatrixActuals ms)) = length ms)
    /\ (Forall (fun c => / 10 ^ 12 * (1 - / 10 ^ 9) <= c)
          (fst (getCovarianceMatrix ms))
     /\ length (fst (getCovarianceMatrix ms)) = length ms)
    /\ (Forall (fun c => / 10 ^ 12 * (1 - / 10 ^ 9) <= c)
          (fst (getCovarianceMatrixActuals ms))
     /\ length (fst (getCovarianceMatrixActuals ms)) = length ms).
Proof.
  intros ms.
  unfold getWeightsMatrix, getWeightsMatrixActuals, getCovarianceMatrix,
    getCovarianceMatrixActuals; cbn [fst].
  rewrite !length_map.
  repeat split; try done;
    apply Forall_fmap, Forall_fmap, Forall_forall; intros m _; cbn [compose];
    first [apply square_bounds_slack, cut_std_dev_ge
          |apply square_bounds_slack, cut_std_dev_act_ge].
Qed.

Lemma cut_commute meas :
  cut_std_dev (cut_std_dev_act meas) = cut_std_dev_act (cut_std_dev meas)
  /\ std_dev (cut_std_dev (cut_std_dev_act meas)) = std_dev (cut_std_dev meas)
  /\ std_dev_act (cut_std_dev_act (cut_std_dev meas))
     = std_dev_act (cut_std_dev_act meas).
Proof.
  unfold cut_std_dev, cut_std_dev_act.
  destruct meas as [e et t ideal u s sa v va]; simpl.
  destruct (Rlt_dec s cut), (Rlt_dec sa cut); simpl;
    repeat (destruct (Rlt_dec _ _); simpl; try lra); done.
Qed.

Lemma cut_std_dev_map_idemp (ms : MeasurementSet) :
  map cut_std_dev (map cut_std_dev ms) = map cut_std_dev ms.
Proof.
  induction ms as [|m ms IH]; simpl; [done|].
  by rewrite cut_std_dev_idemp, IH.
Qed.

Lemma cut_std_dev_act_map_idemp (ms : MeasurementSet) :
  map cut_std_dev_act (map cut_std_dev_act ms) = map cut_std_dev_act ms.
Proof.
  induction ms as [|m ms IH]; simpl; [done|].
  by rewrite cut_std_dev_act_idemp, IH.
Qed.

(** X15: the four reads can be made in any order and any number of
    times: a second read returns the same array and leaves the set as
    the first left it, and a read in one unit does not change the array
    read in the other unit. *)
Theorem reads_do_not_interfere :
  forall ms : MeasurementSet,
    getWeightsMatrix (snd (getWeightsMatrix ms)) = getWeightsMatrix ms
    /\ getWeightsMatrix (snd (getCovarianceMatrix ms)) = getWeightsMatrix ms
    /\ getWeightsMatrixActuals (snd (getWeightsMatrixActuals ms))
       = getWeightsMatrixActuals ms
    /\ getWeightsMatrixActuals (snd (getCovarianceMatrixActuals ms))
       = getWeightsMatrixActuals ms
    /\ fst (getWeightsMatrixActuals (snd (getWeightsMatrix ms)))
       = fst (getWeightsMatrixActuals ms)
    /\ fst (getWeightsMatrix (snd (getWeightsMatrixActuals ms)))
       = fst (getWeightsMatrix ms)
    /\ fst (getCovarianceMatrixActuals (snd (getCovarianceMatrix ms)))
       = fst (getCovarianceMatrixActuals ms)
    /\ fst (getCovarianceMatrix (snd (getCovarianceMatrixActuals ms)))
       = fst (getCovarianceMatrix ms).
Proof.
  intros ms.
  unfold getWeightsMatrix, getWeightsMatrixActuals, getCovarianceMatrix,
    getCovarianceMatrixActuals; cbn [fst snd].
  rewrite cut_std_dev_map_idemp, cut_std_dev_act_map_idemp.
  repeat split; try done;
    rewrite <- !list_fmap_compose; apply list_fmap_ext; intros i m _;
    cbn [compose]; f_equal; apply cut_commute.
Qed.

Lemma noise_forgets_cut meas :
  (forall err_pu index,
      simulate_normal err_pu index (cut_std_dev meas)
      = simulate_normal err_pu index meas)
  /\ (forall err_pu index,
      simulate_uniform err_pu index (cut_std_dev meas)
      = simulate_uniform err_pu index meas)
  /\ field_reading (cut_std_dev meas) = field_reading meas
  /\ to_actuals (cut_std_dev_act meas) = to_actuals meas.
Proof.
  unfold cut_std_dev, cut_std_dev_act, simulate_normal, simulate_uniform,
    field_reading, to_actuals.
  destruct meas as [e et t ideal u s sa v va]; simpl.
  destruct (Rlt_dec s cut), (Rlt_dec sa cut); destruct t; simpl;
    repeat split; intros; reflexivity.
Qed.

Lemma noise_keeps_std_dev_act meas :
  (forall err_pu index,
      to_actuals (simulate_normal err_pu index (cut_std_dev_act meas))
      = to_actuals (simulate_normal err_pu index meas))
  /\ (forall err_pu index,
      to_actuals (simulate_uniform err_pu index (cut_std_dev_act meas))
      = to_actuals (simulate_uniform err_pu index meas))
  /\ to_actuals (field_reading (cut_std_dev_act meas))
     = to_actuals (field_reading meas).
Proof.
  unfold cut_std_dev_act, simulate_normal, simulate_uniform,
    field_reading, to_actuals.
  destruct meas as [e et t ideal u s sa v va]; simpl.
  destruct (Rlt_dec sa cut); destruct t; simpl;
    repeat split; intros; reflexivity.
Qed.

(** X16: the cut that a read has written does not survive the next
    [meas_creation].  After a read in actual units, [meas_creation]
    gives the same set as without the read, in every mode; after a
    per-unit read it does so in field mode and in simulation mode with
    the normal or the uniform distribution. *)
Theorem meas_creation_after_read g (ms : MeasurementSet) dist seed type :
  meas_creation g (snd (getWeightsMatrixActuals ms)) dist seed type
  = meas_creation g ms dist seed type
  /\ meas_creation g (snd (getCovarianceMatrixActuals ms)) dist seed type
     = meas_creation g ms dist seed type
  /\ (type = "field"
      \/ (type = "simulation" /\ (dist = "normal" \/ dist = "uniform")) ->
      meas_creation g (snd (getWeightsMatrix ms)) dist seed type
      = meas_creation g ms dist seed type
      /\ meas_creation g (snd (getCovarianceMatrix ms)) dist seed type
         = meas_creation g ms dist seed type).
Proof.
  unfold getWeightsMatrix, getWeightsMatrixActuals, getCovarianceMatrix,
    getCovarianceMatrixActuals; cbn [snd].
  assert (Ha : meas_creation g (map cut_std_dev_act ms) dist seed type
               = meas_creation g ms dist seed type).
  { apply list_eq. intros i.
    rewrite !meas_creation_lookup, list_lookup_fmap, length_map.
    destruct (ms !! i) as [m|]; [|done]. simpl. f_equal.
    destruct (noise_keeps_std_dev_act m) as (Hn & Hu & Hf).
    destruct (noise_forgets_cut m) as (_ & _ & _ & Ht).
    repeat case_match; done. }
  split; [exact Ha|]. split; [exact Ha|].
  intros Hmode.
  assert (Hp : meas_creation g (map cut_std_dev ms) dist seed type
               = meas_creation g ms dist seed type).
  { apply list_eq. intros i.
    rewrite !meas_creation_lookup, list_lookup_fmap, length_map.
    destruct (ms !! i) as [m|]; [|done]. simpl. f_equal.
    destruct (noise_forgets_cut m) as (Hn & Hu & Hf & _).
    destruct Hmode as [-> | [-> [-> | ->]]]; simpl; by f_equal. }
  done.
Qed.

(** ** Selection by type: counts and index arrays *)

Lemma indices_from_complete type (ms : MeasurementSet) : forall k j m,
  ms !! j = Some m -> meas_type m = type ->
  (k + j)%nat ∈ indices_from type k ms.
Proof.
  induction ms as [|m0 ms IH]; intros k j m Hj Ht; [done|].
  simpl. destruct j as [|j]; simpl in Hj.
  - injection Hj as ->. rewrite decide_True by done.
    rewrite Nat.add_0_r. left.
  - replace (k + S j)%nat with (S k + j)%nat by lia.
    destruct (decide (meas_type m0 = type)); [right|]; by eapply IH.
Qed.

Lemma count_all_types (ms : MeasurementSet) :
  sum_list (map (fun t => length (filter (fun m => meas_type m = t) ms))
              sorted_types)
  = length ms.
Proof.
  unfold sorted_types. simpl.
  induction ms as [|m ms IH]; [reflexivity|].
  rewrite !(filter_cons _ m ms).
  destruct (meas_type m); simpl in *; lia.
Qed.

(** X17: the three selections agree on the count: for every type
    [getNumberOfMeasurements] is the length of [getMeasurementsOfType]
    and of [getIndexOfMeasurements], and the counts of the fourteen
    types add up to the size of the set. *)
Theorem counts_agree :
  forall ms : MeasurementSet,
    (forall type,
        getNumberOfMeasurements ms type
        = length (getMeasurementsOfType ms type)
        /\ length (getIndexOfMeasurements ms type)
           = getNumberOfMeasurements ms type)
    /\ sum_list (map (getNumberOfMeasurements ms) sorted_types) = length ms.
Proof.
  intros ms.
  assert (Hn : forall type,
             getNumberOfMeasurements ms type
             = length (filter (fun m => meas_type m = type) ms)).
  { intros type. rewrite (getNumberOfMeasurements_length ms type 0).
    apply indices_from_length. }
  split.
  - intros type. rewrite getIndexOfMeasurements_length,
      getMeasurementsOfType_filter. by rewrite Hn.
  - rewrite <- (count_all_types ms). f_equal.
    apply list_fmap_ext. intros _ t _. apply Hn.
Qed.

(** X18: the index array of a type lists, in increasing order, exactly
    the positions of the measurements of that type, and its n-th entry
    is the position of the n-th measurement that
    [getMeasurementsOfType] returns. *)
Theorem getIndexOfMeasurements_positions :
  forall (ms : MeasurementSet) type,
    (forall i, i ∈ getIndexOfMeasurements ms type
               <-> exists m, ms !! i = Some m /\ meas_type m = type)
    /\ (forall n n' i i',
          (n < n')%nat ->
          getIndexOfMeasurements ms type !! n = Some i ->
          getIndexOfMeasurements ms type !! n' = Some i' ->
          (i < i')%nat)
    /\ (forall n i,
          getIndexOfMeasurements ms type !! n = Some i ->
          ms !! i = getMeasurementsOfType ms type !! n).
Proof.
  intros ms type. split; [|split].
  - intros i. split.
    + intros Hin. apply list_elem_of_lookup in Hin as [n Hn].
      apply getIndexOfMeasurements_lookup in Hn as (m & ? & ? & _). eauto.
    + intros (m & Hm & Ht). rewrite getIndexOfMeasurements_indices.
      exact (indices_from_complete type ms 0 i m Hm Ht).
  - intros n n' i i' Hlt. rewrite getIndexOfMeasurements_indices.
    by apply indices_from_lt.
  - intros n i Hn.
    apply getIndexOfMeasurements_lookup in Hn as (m & -> & _ & ->). done.
Qed.

(** ** Sorting: permutation, order, stability, fixed points *)

Lemma filter_either (ms : MeasurementSet) t (ts : list MeasType) :
  t ∉ ts ->
  filter (fun m => meas_type m = t) ms
    ++ filter (fun m => meas_type m ∈ ts) ms
  ≡ₚ filter (fun m => meas_type m ∈ t :: ts) ms.
Proof.
  intros Hnot. induction ms as [|m ms IH]; [done|].
  rewrite !(filter_cons _ m ms).
  destruct (decide (meas_type m = t)) as [Ht|Ht].
  - rewrite decide_False by congruence.
    rewrite decide_True by (rewrite Ht; left).
    simpl. by rewrite IH.
  - destruct (decide (meas_type m ∈ ts)) as [Hin|Hin].
    + rewrite decide_True by by right.
      rewrite <- Permutation_middle. by rewrite IH.
    + rewrite decide_False; [done|].
      rewrite elem_of_cons. tauto.
Qed.

Lemma blocks_permutation (ms : MeasurementSet) (ts : list MeasType) :
  NoDup ts ->
  mjoin (map (fun t => filter (fun m => meas_type m = t) ms) ts)
  ≡ₚ filter (fun m => meas_type m ∈ ts) ms.
Proof.
  induction 1 as [|t ts Hnot Hnd IH]; simpl.
  - induction ms as [|m ms IHms]; [done|].
    rewrite filter_cons, decide_False; [done|]. apply not_elem_of_nil.
  - rewrite IH. by apply filter_either.
Qed.

Lemma sorted_types_complete t : t ∈ sorted_types.
Proof.
  unfold sorted_types. rewrite !elem_of_cons. destruct t; tauto.
Qed.

Lemma sorted_types_NoDup : NoDup sorted_types.
Proof.
  apply (bool_decide_unpack (NoDup sorted_types)). by vm_compute.
Qed.

(** X19: the sorted set is a permutation of the set: no measurement is
    lost, duplicated or invented. *)
Theorem getSortedMeasurementSet_permutation :
  forall ms : MeasurementSet, getSortedMeasurementSet ms ≡ₚ ms.
Proof.
  intros ms. rewrite getSortedMeasurementSet_unfold.
  rewrite (blocks_permutation ms sorted_types sorted_types_NoDup).
  induction ms as [|m ms IH]; [done|].
  rewrite filter_cons, decide_True by apply sorted_types_complete.
  by rewrite IH.
Qed.

Lemma blocks_sorted (ms : MeasurementSet) (ts : list MeasType) :
  StronglySorted (fun a b => (type_rank a <= type_rank b)%nat) ts ->
  StronglySorted
    (fun m m' => (type_rank (meas_type m) <= type_rank (meas_type m'))%nat)
    (mjoin (map (fun t => filter (fun m => meas_type m = t) ms) ts)).
Proof.
  induction ts as [|t ts IH]; intros Hs; simpl; [constructor|].
  apply StronglySorted_cons in Hs as [Hall Hs].
  apply StronglySorted_app_2.
  - intros x1 x2 H1 H2.
    apply list_elem_of_filter in H1 as [-> _].
    apply list_elem_of_join in H2 as (block & H2 & Hb).
    apply list_elem_of_fmap in Hb as (t' & -> & Ht').
    apply list_elem_of_filter in H2 as [-> _].
    by apply (proj1 (Forall_forall _ _) Hall).
  - clear IH. induction ms as [|m ms IHms]; [constructor|].
    rewrite filter_cons.
    destruct (decide (meas_type m = t)) as [Ht|]; [|exact IHms].
    constructor; [exact IHms|]. apply Forall_forall. intros x Hx.
    apply list_elem_of_filter in Hx as [-> _]. by rewrite Ht.
  - by apply IH.
Qed.

Lemma sorted_types_by_rank :
  StronglySorted (fun a b => (type_rank a <= type_rank b)%nat) sorted_types.
Proof.
  unfold sorted_types.
  repeat (constructor; [|repeat constructor; vm_compute; lia]).
  constructor.
Qed.

(** X20: in the sorted set the types follow the order required by the
    estimator: a measurement never precedes one whose type comes
    earlier in the list V_mag, Sinj_real, Sinj_imag, S1_real, S1_imag,
    S2_real, S2_imag, I_mag, Vpmu_mag, Vpmu_phase, Ipmu_mag, Ipmu_phase,
    Ipmu_inj_mag, Ipmu_inj_phase. *)
Theorem getSortedMeasurementSet_ordered :
  forall ms : MeasurementSet,
    StronglySorted
      (fun m m' => (type_rank (meas_type m) <= type_rank (meas_type m'))%nat)
      (getSortedMeasurementSet ms).
Proof.
  intros ms. rewrite getSortedMeasurementSet_unfold.
  apply blocks_sorted, sorted_types_by_rank.
Qed.

(** X21: sorting is stable: the measurements of one type come out in
    the order they had in the set. *)
Theorem getSortedMeasurementSet_stable :
  forall (ms : MeasurementSet) type,
    getMeasurementsOfType (getSortedMeasurementSet ms) type
    = getMeasurementsOfType ms type.
Proof.
  intros ms type. rewrite !getMeasurementsOfType_filter.
  apply filter_sorted.
Qed.

Lemma indices_from_app type (l1 l2 : MeasurementSet) : forall k,
  indices_from type k (l1 ++ l2)
  = indices_from type k l1 ++ indices_from type (k + length l1) l2.
Proof.
  induction l1 as [|m l1 IH]; intros k; simpl.
  - by rewrite Nat.add_0_r.
  - rewrite IH. replace (S k + length l1)%nat with (k + S (length l1))%nat
      by lia.
    by destruct (decide (meas_type m = type)).
Qed.

Lemma indices_from_shift type (ms : MeasurementSet) : forall k,
  indices_from type k ms = map (fun i => (k + i)%nat) (indices_from type 0 ms).
Proof.
  induction ms as [|m ms IH]; intros k; simpl; [done|].
  rewrite (IH (S k)), (IH 1%nat).
  assert (E : map (fun i => (S k + i)%nat) (indices_from type 0 ms)
              = map (fun i => (k + i)%nat)
                  (map (fun i => (1 + i)%nat) (indices_from type 0 ms))).
  { rewrite <- list_fmap_compose. apply list_fmap_ext.
    intros; simpl; lia. }
  rewrite E.
  destruct (decide (meas_type m = type)); simpl; by rewrite ?Nat.add_0_r.
Qed.

Lemma indices_from_block type type' (ms : MeasurementSet) k :
  indices_from type k (filter (fun m => meas_type m = type') ms)
  = if decide (type = type')
    then seq k (length (filter (fun m => meas_type m = type') ms))
    else [].
Proof.
  revert k. induction ms as [|m ms IH]; intros k.
  - by destruct (decide (type = type')).
  - rewrite filter_cons.
    destruct (decide (meas_type m = type')) as [Hm|Hm]; [|apply IH].
    simpl. rewrite IH.
    destruct (decide (type = type')) as [->|Hne].
    + by rewrite decide_True by done.
    + by rewrite decide_False by congruence.
Qed.

(** X22: in the sorted set the measurements of a type occupy
    consecutive positions, which start after all measurements of the
    types that come earlier in the required order. *)
Theorem getIndexOfMeasurements_sorted :
  forall (ms : MeasurementSet) type,
    getIndexOfMeasurements (getSortedMeasurementSet ms) type
    = seq (sum_list (map (getNumberOfMeasurements ms)
                       (take (type_rank type) sorted_types)))
          (getNumberOfMeasurements ms type).
Proof.
  intros ms type.
  assert (Hn : forall t,
             getNumberOfMeasurements ms t
             = length (filter (fun m => meas_type m = t) ms)).
  { intros t. rewrite (getNumberOfMeasurements_length ms t 0).
    apply indices_from_length. }
  rewrite getIndexOfMeasurements_indices, getSortedMeasurementSet_unfold.
  unfold sorted_types at 1. cbn [map mjoin list_join].
  rewrite !indices_from_app, !indices_from_block, !Hn.
  destruct type; vm_compute type_rank; cbn [take sorted_types map sum_list
    sum_list_with decide decide_rel MeasType_eq_dec]; simpl;
    rewrite ?app_nil_r, ?Hn; f_equal; lia.
Qed.

Lemma filter_lower (ms : MeasurementSet) t r :
  Forall (fun x => (r <= type_rank (meas_type x))%nat) ms ->
  (type_rank t < r)%nat ->
  filter (fun m => meas_type m = t) ms = [].
Proof.
  intros Hall Hlt. induction Hall as [|m ms Hm Hall IH]; [done|].
  rewrite filter_cons, decide_False; [exact IH|].
  intros Heq. rewrite Heq in Hm. lia.
Qed.

(** X23: a set that already follows the required order of types is
    returned unchanged by the sort. *)
Theorem getSortedMeasurementSet_fixed (ms : MeasurementSet) :
  StronglySorted
    (fun m m' => (type_rank (meas_type m) <= type_rank (meas_type m'))%nat)
    ms ->
  getSortedMeasurementSet ms = ms.
Proof.
  induction 1 as [|m ms Hs IH Hall]; [reflexivity|].
  rewrite getSortedMeasurementSet_unfold in *.
  unfold sorted_types in *. cbn [map mjoin list_join] in *.
  rewrite !(filter_cons _ m ms).
  destruct (meas_type m) eqn:Et; simpl;
    repeat match goal with
    | |- context [filter (fun x => meas_type x = ?t) ms] =>
        rewrite (filter_lower ms t _ Hall) by (vm_compute; lia)
    end;
    repeat match type of IH with
    | context [filter (fun x => meas_type x = ?t) ms] =>
        rewrite (filter_lower ms t _ Hall) in IH by (vm_compute; lia)
    end;
    simpl in *; by rewrite IH.
Qed.

Lemma getSortedMeasurementSet_fixed_witness :
  getSortedMeasurementSet
    [Measurement_init node_N1 Node V_mag 1 1;
     Measurement_init node_N1 Node Vpmu_mag 1 1;
     Measurement_init node_N1 Node Vpmu_phase 0 1]
  = [Measurement_init node_N1 Node V_mag 1 1;
     Measurement_init node_N1 Node Vpmu_mag 1 1;
     Measurement_init node_N1 Node Vpmu_phase 0 1].
Proof.
  apply getSortedMeasurementSet_fixed.
  repeat (constructor; [|repeat constructor; vm_compute; lia]).
  constructor.
Defined.

(** ** Merging and creating *)

Lemma getIndexOfMeasurements_app (a b : MeasurementSet) type :
  getIndexOfMeasurements (a ++ b) type
  = getIndexOfMeasurements a type
    ++ map (fun i => (length a + i)%nat) (getIndexOfMeasurements b type).
Proof.
  rewrite !getIndexOfMeasurements_indices, indices_from_app.
  by rewrite (indices_from_shift type b (0 + length a)).
Qed.

Lemma getNumberOfMeasurements_filter (ms : MeasurementSet) type :
  getNumberOfMeasurements ms type
  = length (filter (fun m => meas_type m = type) ms).
Proof.
  rewrite (getNumberOfMeasurements_length ms type 0).
  apply indices_from_length.
Qed.

(** X24: merging keeps both sets in order, the first before the second:
    the selection of a type from the merged set is the selection from
    the first followed by the selection from the second, the counts
    add, and the index array is that of the first set followed by that
    of the second shifted by the size of the first. *)
Theorem mergeMeasurementSets_selection :
  forall (meas_set_1 meas_set_2 : MeasurementSet) type,
    length (mergeMeasurementSets meas_set_1 meas_set_2)
    = (length meas_set_1 + length meas_set_2)%nat
    /\ getMeasurementsOfType (mergeMeasurementSets meas_set_1 meas_set_2) type
       = getMeasurementsOfType meas_set_1 type
         ++ getMeasurementsOfType meas_set_2 type
    /\ getNumberOfMeasurements (mergeMeasurementSets meas_set_1 meas_set_2)
         type
       = (getNumberOfMeasurements meas_set_1 type
          + getNumberOfMeasurements meas_set_2 type)%nat
    /\ getIndexOfMeasurements (mergeMeasurementSets meas_set_1 meas_set_2)
         type
       = getIndexOfMeasurements meas_set_1 type
         ++ map (fun i => (length meas_set_1 + i)%nat)
              (getIndexOfMeasurements meas_set_2 type).
Proof.
  intros a b type. unfold mergeMeasurementSets.
  rewrite length_app, !getMeasurementsOfType_filter, filter_app,
    !getNumberOfMeasurements_filter, filter_app, length_app.
  repeat split. apply getIndexOfMeasurements_app.
Qed.

(** X25: sorting two sets before merging them does not change the
    sorted merged set. *)
Theorem getSortedMeasurementSet_merge :
  forall meas_set_1 meas_set_2 : MeasurementSet,
    getSortedMeasurementSet
      (mergeMeasurementSets (getSortedMeasurementSet meas_set_1)
         (getSortedMeasurementSet meas_set_2))
    = getSortedMeasurementSet (mergeMeasurementSets meas_set_1 meas_set_2).
Proof.
  intros a b. unfold mergeMeasurementSets.
  rewrite (getSortedMeasurementSet_unfold (_ ++ _)),
    (getSortedMeasurementSet_unfold (a ++ b)).
  f_equal. apply list_fmap_ext. intros _ t _.
  by rewrite !filter_app, !filter_sorted.
Qed.

(** X26: a created measurement goes to the end of the set with zero in
    its four computed fields: the earlier measurements keep their
    positions, and the index array of its type gains the old size of
    the set while the index arrays of the other types are unchanged. *)
Theorem create_measurement_appends :
  forall (ms : MeasurementSet) e et mt ideal u,
    (forall i, (i < length ms)%nat ->
               create_measurement ms e et mt ideal u !! i = ms !! i)
    /\ create_measurement ms e et mt ideal u !! length ms
       = Some (mkMeasurement e et mt ideal u 0 0 0 0)
    /\ length (create_measurement ms e et mt ideal u) = S (length ms)
    /\ forall type,
         getIndexOfMeasurements (create_measurement ms e et mt ideal u) type
         = if decide (mt = type)
           then getIndexOfMeasurements ms type ++ [length ms]
           else getIndexOfMeasurements ms type.
Proof.
  intros ms e et mt ideal u. unfold create_measurement, Measurement_init.
  split; [|split; [|split]].
  - intros i Hi. by apply lookup_app_l.
  - by rewrite list_lookup_middle.
  - rewrite length_app. simpl. lia.
  - intros type. rewrite getIndexOfMeasurements_app.
    rewrite (getIndexOfMeasurements_indices [_]). simpl.
    destruct (decide (mt = type)); simpl;
      by rewrite ?Nat.add_0_r, ?app_nil_r.
Qed.

Lemma pmu_fold_left (a b : MeasurementSet) value ps : forall accA accB,
  Forall (fun p => (p.1 < length a)%nat /\ (p.2 < length a)%nat) ps ->
  length accA = length a ->
  foldl (pmu_step (a ++ b) value) (accA ++ accB) ps
  = foldl (pmu_step a value) accA ps ++ accB.
Proof.
  induction ps as [|[x y] ps IH]; intros accA accB Hall Hlen; [done|].
  apply Forall_cons in Hall as [[Hx Hy] Hall]. simpl in Hx, Hy.
  cbn [foldl].
  assert (E : pmu_step (a ++ b) value (accA ++ accB) (x, y)
              = pmu_step a value accA (x, y) ++ accB).
  { unfold pmu_step. rewrite !lookup_app_l by done.
    destruct (a !! x), (a !! y); try done.
    rewrite (insert_app_l _ _ x) by lia.
    by rewrite (insert_app_l _ _ y) by (rewrite length_insert; lia). }
  rewrite E. apply IH; [done|].
  by rewrite (pmu_step_length a value accA (x, y)).
Qed.

Lemma pmu_fold_right (a b : MeasurementSet) value ps : forall accA accB,
  length accA = length a ->
  foldl (pmu_step (a ++ b) value) (accA ++ accB)
    (map (fun p => ((length a + p.1)%nat, (length a + p.2)%nat)) ps)
  = accA ++ foldl (pmu_step b value) accB ps.
Proof.
  induction ps as [|[x y] ps IH]; intros accA accB Hlen; [done|].
  cbn [foldl map fst snd].
  assert (E : pmu_step (a ++ b) value (accA ++ accB)
                ((length a + x)%nat, (length a + y)%nat)
              = accA ++ pmu_step b value accB (x, y)).
  { unfold pmu_step. rewrite !lookup_app_r by lia.
    replace (length a + x - length a)%nat with x by lia.
    replace (length a + y - length a)%nat with y by lia.
    destruct (b !! x), (b !! y); try done.
    rewrite <- Hlen. by rewrite !insert_app_r. }
  rewrite E. by apply IH.
Qed.

Lemma zip_shift (k : nat) (l1 l2 : list nat) :
  zip (map (fun i => (k + i)%nat) l1) (map (fun i => (k + i)%nat) l2)
  = map (fun p => ((k + p.1)%nat, (k + p.2)%nat)) (zip l1 l2).
Proof.
  revert l2. induction l1 as [|x l1 IH]; intros [|y l2]; simpl; try done.
  by rewrite IH.
Qed.

Lemma replace_pmu_app (a b : MeasurementSet) value mag_type phase_type
    accA accB :
  getNumberOfMeasurements a mag_type = getNumberOfMeasurements a phase_type ->
  length accA = length a ->
  replace_pmu (a ++ b) value mag_type phase_type (accA ++ accB)
  = replace_pmu a value mag_type phase_type accA
    ++ replace_pmu b value mag_type phase_type accB.
Proof.
  intros Hbal Hlen. rewrite !replace_pmu_fold.
  rewrite !getIndexOfMeasurements_app.
  rewrite zip_with_app.
  2:{ rewrite !getIndexOfMeasurements_length, !getMeasurementsOfType_filter,
        <- !getNumberOfMeasurements_filter. exact Hbal. }
  rewrite foldl_app, zip_shift.
  rewrite pmu_fold_left; [|
    |exact Hlen].
  - rewrite pmu_fold_right; [done|]. by rewrite pmu_fold_length.
  - apply Forall_forall. intros [x y] Hin.
    apply list_elem_of_lookup in Hin as [n Hn].
    apply lookup_zip_with_Some in Hn as (x' & y' & [= -> ->] & Hx & Hy).
    apply getIndexOfMeasurements_lookup in Hx as (mx & Hx & _).
    apply getIndexOfMeasurements_lookup in Hy as (my & Hy & _).
    apply lookup_lt_Some in Hx, Hy. done.
Qed.

Lemma meas_vector_app (a b : MeasurementSet) value :
  (forall mag_type phase_type,
      (mag_type, phase_type) ∈ pmu_families ->
      getNumberOfMeasurements a mag_type
      = getNumberOfMeasurements a phase_type) ->
  meas_vector (a ++ b) value = meas_vector a value ++ meas_vector b value.
Proof.
  intros Hbal. unfold meas_vector. rewrite map_app.
  rewrite (replace_pmu_app a b value Vpmu_mag Vpmu_phase);
    [|apply Hbal; unfold pmu_families; rewrite !elem_of_cons; tauto
     |by rewrite length_map].
  rewrite (replace_pmu_app a b value Ipmu_mag Ipmu_phase);
    [|apply Hbal; unfold pmu_families; rewrite !elem_of_cons; tauto
     |by rewrite replace_pmu_length, length_map].
  rewrite (replace_pmu_app a b value Ipmu_inj_mag Ipmu_inj_phase);
    [done
     |apply Hbal; unfold pmu_families; rewrite !elem_of_cons; tauto
     |by rewrite !replace_pmu_length, length_map].
Qed.

(** X27: when the first set holds, in each phasor family, as many
    magnitude as phase measurements, the vectors of the merged set are
    the vectors of the first set followed by those of the second: the
    merge does not pair a measurement of one set with one of the
    other. *)
Theorem getMeasValues_merge (meas_set_1 meas_set_2 : MeasurementSet) :
  (forall mag_type phase_type,
      (mag_type, phase_type) ∈ pmu_families ->
      getNumberOfMeasurements meas_set_1 mag_type
      = getNumberOfMeasurements meas_set_1 phase_type) ->
  getMeasValues (mergeMeasurementSets meas_set_1 meas_set_2)
  = getMeasValues meas_set_1 ++ getMeasValues meas_set_2
  /\ getMeasValuesActuals (mergeMeasurementSets meas_set_1 meas_set_2)
     = getMeasValuesActuals meas_set_1 ++ getMeasValuesActuals meas_set_2.
Proof.
  intros Hbal. unfold getMeasValues, getMeasValuesActuals,
    mergeMeasurementSets.
  split; by apply meas_vector_app.
Qed.

Lemma getMeasValues_merge_witness :
  getMeasValues
    (mergeMeasurementSets
       [mkMeasurement node_N1 Node Vpmu_mag 2 1 0 0 2 2;
        mkMeasurement node_N1 Node Vpmu_phase 1 1 0 0 1 1]
       [mkMeasurement node_N2 Node Vpmu_mag 5 1 0 0 5 5])
  = getMeasValues
      [mkMeasurement node_N1 Node Vpmu_mag 2 1 0 0 2 2;
       mkMeasurement node_N1 Node Vpmu_phase 1 1 0 0 1 1]
    ++ getMeasValues [mkMeasurement node_N2 Node Vpmu_mag 5 1 0 0 5 5]
  /\ getMeasValuesActuals
       (mergeMeasurementSets
          [mkMeasurement node_N1 Node Vpmu_mag 2 1 0 0 2 2;
           mkMeasurement node_N1 Node Vpmu_phase 1 1 0 0 1 1]
          [mkMeasurement node_N2 Node Vpmu_mag 5 1 0 0 5 5])
     = getMeasValuesActuals
         [mkMeasurement node_N1 Node Vpmu_mag 2 1 0 0 2 2;
          mkMeasurement node_N1 Node Vpmu_phase 1 1 0 0 1 1]
       ++ getMeasValuesActuals
            [mkMeasurement node_N2 Node Vpmu_mag 5 1 0 0 5 5].
Proof.
  apply getMeasValues_merge.
  intros mag_type phase_type Hf. unfold pmu_families in Hf.
  repeat (apply elem_of_cons in Hf as [[= -> ->] | Hf]); try reflexivity.
  by apply elem_of_nil in Hf.
Defined.

(** ** meas_creation_test and the arrays for test purposes *)

Lemma meas_creation_test_from_returns (ms : MeasurementSet) err_pu :
  forall index,
    (index + length ms <= length err_pu)%nat ->
    snd (meas_creation_test_from index ms err_pu) = TestReturned
    /\ length (fst (meas_creation_test_from index ms err_pu)) = length ms
    /\ (Forall (fun m => std_dev m = 0) ms ->
        Forall (fun m => std_dev m = 0 /\ meas_value m = meas_value_ideal m)
          (fst (meas_creation_test_from index ms err_pu))).
Proof.
  induction ms as [|m ms IH]; intros index Hlen; simpl in *.
  - repeat split; constructor.
  - destruct (err_pu !! index) as [e|] eqn:He.
    2:{ apply lookup_ge_None in He. lia. }
    destruct (IH (S index)) as (Ho & Hl & Hf); [lia|].
    destruct (meas_creation_test_from (S index) ms err_pu) as [rest' o].
    simpl in *. split; [done|]. split; [by rewrite Hl|].
    intros Hz. apply Forall_cons in Hz as [Hm Hz].
    constructor; [|by apply Hf].
    unfold scale_std_dev.
    repeat case_match; simpl; rewrite Hm; split; lra.
Qed.

Lemma meas_creation_test_from_raises (ms : MeasurementSet) err_pu :
  forall index,
    (index <= length err_pu < index + length ms)%nat ->
    snd (meas_creation_test_from index ms err_pu) = IndexError
    /\ length (fst (meas_creation_test_from index ms err_pu)) = length ms
    /\ drop (S (length err_pu - index))
         (fst (meas_creation_test_from index ms err_pu))
       = drop (S (length err_pu - index)) ms.
Proof.
  induction ms as [|m ms IH]; intros index Hlen; simpl in *; [lia|].
  destruct (err_pu !! index) as [e|] eqn:He.
  - apply lookup_lt_Some in He.
    destruct (IH (S index)) as (Ho & Hl & Hd); [lia|].
    destruct (meas_creation_test_from (S index) ms err_pu) as [rest' o].
    simpl in *. split; [done|]. split; [by rewrite Hl|].
    replace (length err_pu - index)%nat
      with (S (length err_pu - S index)) by lia.
    exact Hd.
  - apply lookup_ge_None in He.
    replace (length err_pu - index)%nat with 0%nat by lia.
    simpl. done.
Qed.

(** X28: [meas_creation_test] returns when [err_pu] has at least one
    entry per measurement and raises [IndexError] otherwise; in both
    cases the set keeps its size, and after a raise the measurements
    behind the one whose error entry is missing are left as they
    were. *)
Theorem meas_creation_test_outcome :
  forall (ms : MeasurementSet) (err_pu : list R),
    snd (meas_creation_test ms err_pu)
    = (if decide (length ms <= length err_pu)%nat
       then TestReturned else IndexError)
    /\ length (fst (meas_creation_test ms err_pu)) = length ms
    /\ drop (S (length err_pu)) (fst (meas_creation_test ms err_pu))
       = drop (S (length err_pu)) ms.
Proof.
  intros ms err_pu. unfold meas_creation_test.
  destruct (decide (length ms <= length err_pu)%nat) as [Hle|Hgt].
  - destruct (meas_creation_test_from_returns ms err_pu 0) as (Ho & Hl & _);
      [simpl; lia|].
    split; [done|]. split; [done|].
    rewrite !drop_ge by lia. done.
  - destruct (meas_creation_test_from_raises ms err_pu 0) as (Ho & Hl & Hd);
      [lia|].
    rewrite Nat.sub_0_r in Hd. done.
Qed.

(** X29: on measurements whose standard deviation is zero, as
    [create_measurement] leaves them, [meas_creation_test] adds no
    error: with enough entries in [err_pu], whatever they are, every
    measured value is the ideal value and every standard deviation
    stays zero. *)
Theorem meas_creation_test_fresh (ms : MeasurementSet) (err_pu : list R) :
  (length ms <= length err_pu)%nat ->
  Forall (fun m => std_dev m = 0) ms ->
  Forall (fun m => std_dev m = 0 /\ meas_value m = meas_value_ideal m)
    (fst (meas_creation_test ms err_pu)).
Proof.
  intros Hlen Hz. unfold meas_creation_test.
  destruct (meas_creation_test_from_returns ms err_pu 0) as (_ & _ & Hf);
    [simpl; lia|].
  by apply Hf.
Qed.

Lemma meas_creation_test_fresh_witness :
  Forall (fun m => std_dev m = 0 /\ meas_value m = meas_value_ideal m)
    (fst (meas_creation_test
            [Measurement_init node_N1 Node V_mag 1 5;
             Measurement_init node_N1 Node Vpmu_phase (1/4) 5]
            [3; -2; 7])).
Proof.
  apply meas_creation_test_fresh.
  - simpl. lia.
  - repeat constructor.
Defined.

Lemma values_fill value (ms : MeasurementSet) type :
  forall (pre : list R) n,
    (length (filter (fun m => meas_type m = type) ms) <= n)%nat ->
    fst (foldl (fun '(meas_val, idx) measurement =>
                  if bool_decide (meas_type (measurement : Measurement) = type)
                  then (<[idx := value measurement]> meas_val, (idx + 1)%nat)
                  else (meas_val, idx))
               (pre ++ replicate n 0, length pre) ms)
    = pre ++ map value (filter (fun m => meas_type m = type) ms)
          ++ replicate
               (n - length (filter (fun m => meas_type m = type) ms)) 0.
Proof.
  induction ms as [|m ms IH]; intros pre n Hn; simpl.
  - by rewrite Nat.sub_0_r.
  - rewrite filter_cons in *. unfold bool_decide.
    destruct (decide_rel eq (meas_type m) type);
      destruct (decide (meas_type m = type)); try done.
    + simpl in Hn. destruct n as [|n]; [lia|]. simpl.
      rewrite insert_app_r_alt by lia. rewrite Nat.sub_diag. simpl.
      replace (pre ++ value m :: replicate n 0)
        with ((pre ++ [value m]) ++ replicate n 0)
        by by rewrite <- app_assoc.
      replace (length pre + 1)%nat with (length (pre ++ [value m]))
        by (rewrite length_app; simpl; lia).
      rewrite IH by lia. by rewrite <- app_assoc.
    + by rewrite IH.
Qed.

Lemma values_of_type_selection value (ms : MeasurementSet) type :
  values_of_type value ms type = map value (getMeasurementsOfType ms type).
Proof.
  unfold values_of_type.
  rewrite getNumberOfMeasurements_filter, getMeasurementsOfType_filter.
  etrans; [exact (values_fill value ms type [] _ (le_n _))|].
  rewrite Nat.sub_diag. simpl. by rewrite app_nil_r.
Qed.

(** X30: the arrays for test purposes: with a type given,
    [getIdealMeasValues] and [getMeasValuesTest] hold the ideal and the
    measured values of [getMeasurementsOfType] in its order; and when no
    phasor family has both a magnitude and a phase measurement in the
    set, [getMeasValues] is the plain array of measured values that
    [getMeasValuesTest] returns without a type. *)
Theorem test_arrays :
  forall ms : MeasurementSet,
    (forall type,
        getIdealMeasValues ms (Some type)
        = map meas_value_ideal (getMeasurementsOfType ms type)
        /\ getMeasValuesTest ms (Some type)
           = map meas_value (getMeasurementsOfType ms type))
    /\ ((forall mag_type phase_type,
            (mag_type, phase_type) ∈ pmu_families ->
            getNumberOfMeasurements ms mag_type = 0%nat
            \/ getNumberOfMeasurements ms phase_type = 0%nat) ->
        getMeasValues ms = getMeasValuesTest ms None).
Proof.
  intros ms. split.
  - intros type. split; apply values_of_type_selection.
  - intros Hno. unfold getMeasValues, getMeasValuesTest.
    apply list_eq. intros j.
    rewrite meas_vector_other; [by rewrite list_lookup_fmap|].
    intros mt pt n a b Hf Ha Hb.
    apply lookup_lt_Some in Ha, Hb.
    rewrite getIndexOfMeasurements_length, getMeasurementsOfType_filter,
      <- getNumberOfMeasurements_filter in Ha, Hb.
    destruct (Hno mt pt Hf); lia.
Qed.
